(** * Interruption detection in a GPS track

    A shallow embedding of [InterruptionProcessor]
    (sport_activities_features/interruptions/interruption_processor.py)
    and the properties of its segment builder, event scanner, context
    windower and event classifier.

    Conventions of the embedding.
    - A Python list is a [list]; [xs[i]] for a non-negative [i] is
      [nth_error xs i], and raises [IndexError] out of range.
    - The program only stores, copies and compares its real-valued
      quantities (coordinates in degrees, speeds in km/h, distances in
      metres); they are integers at a fixed scale here, so that [<] and
      [<=] are the comparisons of the source.
    - A [datetime] is its number of microseconds since 1970-01-01, a
      [timedelta] a number of microseconds; making a [timedelta] and
      adding one to a [datetime] raise [OverflowError] when the result
      does not fit the type, as in Python.
    - A call either returns a value or raises; a [while] loop is a
      function recursive on a step budget, and running out of budget is
      an outcome of its own, shown below never to happen. *)

From Stdlib Require Import String ZArith Bool Lia Arith PeanoNat List Sorted.
Import ListNotations.
Local Open Scope Z_scope.

(** ** Outcomes of a call *)

Inductive exn : Type :=
| IndexError
| OverflowError
| ServiceError (msg : string).

Inductive outcome (A : Type) : Type :=
| Ok (a : A)
| Raise (e : exn)
| OutOfFuel.

Arguments Ok {A} a.
Arguments Raise {A} e.
Arguments OutOfFuel {A}.

Definition bind {A B : Type} (m : outcome A) (k : A -> outcome B) : outcome B :=
  match m with
  | Ok a => k a
  | Raise e => Raise e
  | OutOfFuel => OutOfFuel
  end.

Notation "x <- m ;; k" := (bind m (fun x => k))
  (at level 100, m at next level, right associativity).
Notation "' p <- m ;; k" := (bind m (fun p => k))
  (at level 100, p pattern, m at next level, right associativity).

(** [xs[i]] *)
Definition item {A : Type} (xs : list A) (i : nat) : outcome A :=
  match nth_error xs i with
  | Some x => Ok x
  | None => Raise IndexError
  end.

(** [xs[-1]] *)
Definition item_last {A : Type} (xs : list A) : outcome A :=
  match xs with
  | [] => Raise IndexError
  | x :: xs' => Ok (last xs' x)
  end.

(** [xs[a:b]], used to state where the segments of an event come from. *)
Definition slice {A : Type} (xs : list A) (a b : nat) : list A :=
  firstn (b - a) (skipn a xs).

(** [for i in range(n): s = body(s, i)] *)
Definition for_range {St : Type} (n : nat) (body : St -> nat -> outcome St) (s : St)
    : outcome St :=
  fold_left (fun acc i => s' <- acc ;; body s' i) (seq 0 n) (Ok s).

(** [while index < len(lines) and cond(lines[index]):
       s = body(s, lines[index]); index += 1]
    The loops of [parse_events] that walk forward through [lines] guarded
    by the length have this shape. *)
Fixpoint while_below {A St : Type} (fuel : nat) (lines : list A)
    (cond : A -> bool) (body : St -> A -> St) (index : nat) (s : St)
    : outcome (nat * St) :=
  match fuel with
  | O => OutOfFuel
  | S fuel' =>
    match nth_error lines index with
    | Some l =>
      if cond l then while_below fuel' lines cond body (S index) (body s l)
      else Ok (index, s)
    | None => Ok (index, s)
    end
  end.

(** ** Data model *)

(** The attribute bag ([DotMap]) of one sample; an attribute that was
    never assigned is [None]. *)
Record TrackPoint : Type := mkTrackPoint {
  latitude : Z;
  longitude : Z;
  time : Z;
  elevation : option Z;
  heartrate : option Z;
  distance : option Z
}.

(** [speed] is the value of [speed.km]; [prev_speed] is the third
    argument given to the constructor. *)
Record TrackSegment : Type := mkTrackSegment {
  point_a : TrackPoint;
  point_b : TrackPoint;
  speed : Z;
  prev_speed : option Z
}.

Inductive EventType : Type :=
| UNDEFINED
| EXERCISE_START
| EXERCISE_STOP
| EXERCISE_PAUSE.

Inductive EventDetailType : Type :=
| INTERSECTION.

Record EventLocation : Type := mkEventLocation {
  loc_longitude : Z;
  loc_latitude : Z
}.

Record EventDetail : Type := mkEventDetail {
  location : EventLocation;
  type : EventDetailType
}.

Record EventStats : Type := mkEventStats {
  index_start : nat;
  index_end : nat;
  timestamp_pre_start : Z;
  timestamp_mid_start : Z;
  timestamp_mid : Z;
  timestamp_mid_end : Z;
  timestamp_post_end : Z
}.

Record ExerciseEvent : Type := mkExerciseEvent {
  pre_event : list TrackSegment;
  event : list TrackSegment;
  post_event : list TrackSegment;
  event_detail : option EventDetail;
  event_type : EventType
}.

(** The track record read from a TCX or GPX file: parallel arrays. *)
Record TrackData : Type := mkTrackData {
  positions : list (Z * Z);
  timestamps : list Z;
  altitudes : list Z;
  heartrates : list Z;
  distances : list Z;
  speeds : list Z
}.

Record InterruptionProcessor : Type := mkInterruptionProcessor {
  time_interval : Z;
  min_speed : Z;
  overpass_api_url : string
}.

(** [InterruptionProcessor()] with the default arguments of [__init__]. *)
Definition default_processor : InterruptionProcessor :=
  {| time_interval := 60;
     min_speed := 2;
     overpass_api_url := "https://lz4.overpass-api.de/api/interpreter" |}.

(** *** Attribute assignments *)

Definition empty_point : TrackPoint :=
  mkTrackPoint 0 0 0 None None None.

Definition set_latitude (p : TrackPoint) (v : Z) : TrackPoint :=
  mkTrackPoint v (longitude p) (time p) (elevation p) (heartrate p) (distance p).
Definition set_longitude (p : TrackPoint) (v : Z) : TrackPoint :=
  mkTrackPoint (latitude p) v (time p) (elevation p) (heartrate p) (distance p).
Definition set_time (p : TrackPoint) (v : Z) : TrackPoint :=
  mkTrackPoint (latitude p) (longitude p) v (elevation p) (heartrate p) (distance p).
Definition set_elevation (p : TrackPoint) (v : Z) : TrackPoint :=
  mkTrackPoint (latitude p) (longitude p) (time p) (Some v) (heartrate p) (distance p).
Definition set_heartrate (p : TrackPoint) (v : Z) : TrackPoint :=
  mkTrackPoint (latitude p) (longitude p) (time p) (elevation p) (Some v) (distance p).
Definition set_distance (p : TrackPoint) (v : Z) : TrackPoint :=
  mkTrackPoint (latitude p) (longitude p) (time p) (elevation p) (heartrate p) (Some v).

Definition set_index_start (s : EventStats) (v : nat) : EventStats :=
  mkEventStats v (index_end s) (timestamp_pre_start s) (timestamp_mid_start s)
    (timestamp_mid s) (timestamp_mid_end s) (timestamp_post_end s).
Definition set_index_end (s : EventStats) (v : nat) : EventStats :=
  mkEventStats (index_start s) v (timestamp_pre_start s) (timestamp_mid_start s)
    (timestamp_mid s) (timestamp_mid_end s) (timestamp_post_end s).
Definition set_timestamp_pre_start (s : EventStats) (v : Z) : EventStats :=
  mkEventStats (index_start s) (index_end s) v (timestamp_mid_start s)
    (timestamp_mid s) (timestamp_mid_end s) (timestamp_post_end s).
Definition set_timestamp_mid_start (s : EventStats) (v : Z) : EventStats :=
  mkEventStats (index_start s) (index_end s) (timestamp_pre_start s) v
    (timestamp_mid s) (timestamp_mid_end s) (timestamp_post_end s).
Definition set_timestamp_mid (s : EventStats) (v : Z) : EventStats :=
  mkEventStats (index_start s) (index_end s) (timestamp_pre_start s)
    (timestamp_mid_start s) v (timestamp_mid_end s) (timestamp_post_end s).
Definition set_timestamp_mid_end (s : EventStats) (v : Z) : EventStats :=
  mkEventStats (index_start s) (index_end s) (timestamp_pre_start s)
    (timestamp_mid_start s) (timestamp_mid s) v (timestamp_post_end s).
Definition set_timestamp_post_end (s : EventStats) (v : Z) : EventStats :=
  mkEventStats (index_start s) (index_end s) (timestamp_pre_start s)
    (timestamp_mid_start s) (timestamp_mid s) (timestamp_mid_end s) v.

(** [EventStats()]: nothing recorded yet.  [parse_events] writes every
    field before it reads it. *)
Definition new_EventStats : EventStats :=
  mkEventStats 0 0 0 0 0 0 0.

Definition add_pre_event (ev : ExerciseEvent) (l : TrackSegment) : ExerciseEvent :=
  mkExerciseEvent (pre_event ev ++ [l]) (event ev) (post_event ev)
    (event_detail ev) (event_type ev).
Definition add_event (ev : ExerciseEvent) (l : TrackSegment) : ExerciseEvent :=
  mkExerciseEvent (pre_event ev) (event ev ++ [l]) (post_event ev)
    (event_detail ev) (event_type ev).
Definition add_post_event (ev : ExerciseEvent) (l : TrackSegment) : ExerciseEvent :=
  mkExerciseEvent (pre_event ev) (event ev) (post_event ev ++ [l])
    (event_detail ev) (event_type ev).
Definition set_event_type (ev : ExerciseEvent) (t : EventType) : ExerciseEvent :=
  mkExerciseEvent (pre_event ev) (event ev) (post_event ev) (event_detail ev) t.
Definition set_event_detail (ev : ExerciseEvent) (d : EventDetail) : ExerciseEvent :=
  mkExerciseEvent (pre_event ev) (event ev) (post_event ev) (Some d) (event_type ev).

(** ** Time *)

(** [datetime.min] and [datetime.max], 0001-01-01 00:00:00 and
    9999-12-31 23:59:59.999999. *)
Definition datetime_min : Z := -62135596800000000.
Definition datetime_max : Z := 253402300799999999.

(** [timedelta.min] and [timedelta.max]: 999999999 days either way. *)
Definition timedelta_min : Z := -86399999913600000000.
Definition timedelta_max : Z := 86399999999999999999.

Definition is_datetime (t : Z) : bool :=
  (datetime_min <=? t) && (t <=? datetime_max).

Definition is_timedelta (d : Z) : bool :=
  (timedelta_min <=? d) && (d <=? timedelta_max).

(** The microseconds of [s] seconds. *)
Definition timedelta_seconds (s : Z) : Z := s * 1000000.

(** [timedelta(seconds=s)] *)
Definition timedelta (s : Z) : outcome Z :=
  if is_timedelta (timedelta_seconds s) then Ok (timedelta_seconds s)
  else Raise OverflowError.

(** [t + d] and [t - d] for a [datetime] [t] and a [timedelta] [d] *)
Definition datetime_add (t d : Z) : outcome Z :=
  if is_datetime (t + d) then Ok (t + d) else Raise OverflowError.

Definition datetime_sub (t d : Z) : outcome Z :=
  if is_datetime (t - d) then Ok (t - d) else Raise OverflowError.

(** [d / 2] on a [timedelta]: the quotient rounded to the nearest
    microsecond, halves to even. *)
Definition timedelta_half (d : Z) : Z :=
  let q := d / 2 in
  if Z.even d then q else if Z.even q then q else q + 1.

(** ** Track segment builder: [__data_to_lines] *)

Section Builder.

(** The constructor [TrackSegment(point_a, point_b, prev_speed)] is
    declared in exercise.py, which is not part of these sources;
    [segment_speed] stands for the speed it derives from its
    arguments. *)
Variable segment_speed : TrackPoint -> TrackPoint -> option Z -> Z.

Definition new_TrackSegment (a b : TrackPoint) (prev : option Z) : TrackSegment :=
  mkTrackSegment a b (segment_speed a b prev) prev.

(** [point.f = xs[i]], done only [if len(xs) == len(positions)] *)
Definition copy_if_parallel (tcx_data : TrackData) (xs : list Z)
    (set : TrackPoint -> Z -> TrackPoint) (i : nat)
    (points : TrackPoint * TrackPoint) : outcome (TrackPoint * TrackPoint) :=
  if (length xs =? length (positions tcx_data))%nat then
    va <- item xs (i - 1) ;;
    vb <- item xs i ;;
    Ok (set (fst points) va, set (snd points) vb)
  else Ok points.

(** One turn of [for i in range(len(tcx_data['positions']))]. *)
Definition data_to_lines_body (tcx_data : TrackData)
    (lines : list TrackSegment) (i : nat) : outcome (list TrackSegment) :=
  if negb (i =? 0)%nat then
    pos_a <- item (positions tcx_data) (i - 1) ;;
    let point_a := set_latitude empty_point (fst pos_a) in
    let point_a := set_longitude point_a (snd pos_a) in
    time_a <- item (timestamps tcx_data) (i - 1) ;;
    let point_a := set_time point_a time_a in
    pos_b <- item (positions tcx_data) i ;;
    let point_b := set_latitude empty_point (fst pos_b) in
    let point_b := set_longitude point_b (snd pos_b) in
    time_b <- item (timestamps tcx_data) i ;;
    let point_b := set_time point_b time_b in
    points <- copy_if_parallel tcx_data (altitudes tcx_data) set_elevation i
                (point_a, point_b) ;;
    points <- copy_if_parallel tcx_data (heartrates tcx_data) set_heartrate i points ;;
    points <- copy_if_parallel tcx_data (distances tcx_data) set_distance i points ;;
    points <- copy_if_parallel tcx_data (speeds tcx_data) set_distance i points ;;
    prev_speed <- (if (1 <? i)%nat
                   then (l <- item_last lines ;; Ok (Some (speed l)))
                   else Ok None) ;;
    let ts := new_TrackSegment (fst points) (snd points) prev_speed in
    Ok (lines ++ [ts])
  else Ok lines.

Definition data_to_lines (tcx_data : TrackData) : outcome (list TrackSegment) :=
  for_range (length (positions tcx_data)) (data_to_lines_body tcx_data) [].

End Builder.

(** ** Event scanner and context windower: [parse_events] *)

Definition determine_event_type (event_stats : EventStats)
    (lines : list TrackSegment) : EventType :=
  if (index_start event_stats =? 0)%nat then EXERCISE_START
  else if Z.of_nat (length lines) - 1 <=? Z.of_nat (index_end event_stats)
  then EXERCISE_STOP
  else EXERCISE_PAUSE.

(** Steps that suffice for a loop that moves one index forward through
    [lines] at every turn. *)
Definition budget (lines : list TrackSegment) : nat := S (S (length lines)).

(** [while index < len(lines) and lines[index].speed.km < self.min_speed:
      event.add_event(lines[index])
      event_stats.timestamp_mid_end = lines[index].point_b.time
      index += 1] *)
Definition run_loop (self : InterruptionProcessor) (lines : list TrackSegment)
    (index : nat) (ev : ExerciseEvent) (event_stats : EventStats)
    : outcome (nat * (ExerciseEvent * EventStats)) :=
  while_below (budget lines) lines
    (fun l => speed l <? min_speed self)
    (fun s l => (add_event (fst s) l,
                 set_timestamp_mid_end (snd s) (time (point_b l))))
    index (ev, event_stats).

(** [while indexPost < len(lines) and
      lines[indexPost].point_a.time < event_stats.timestamp_post_end:
      event.add_post_event(lines[indexPost])
      indexPost += 1] *)
Definition post_loop (lines : list TrackSegment) (indexPost : nat)
    (ev : ExerciseEvent) (event_stats : EventStats) : outcome (nat * ExerciseEvent) :=
  while_below (budget lines) lines
    (fun l => time (point_a l) <? timestamp_post_end event_stats)
    add_post_event indexPost ev.

(** [while lines[indexStartPre].point_a.time < event_stats.timestamp_pre_start:
      indexStartPre += 1]
    The index is not compared with [len(lines)]. *)
Fixpoint pre_skip_loop (fuel : nat) (lines : list TrackSegment)
    (indexStartPre : nat) (event_stats : EventStats) : outcome nat :=
  match fuel with
  | O => OutOfFuel
  | S fuel' =>
    l <- item lines indexStartPre ;;
    if time (point_a l) <? timestamp_pre_start event_stats then
      pre_skip_loop fuel' lines (S indexStartPre) event_stats
    else Ok indexStartPre
  end.

(** [while indexStartPre < len(lines) and
      lines[indexStartPre].point_a.time <= event_stats.timestamp_mid_start:
      event.add_pre_event(lines[indexStartPre])
      indexStartPre += 1] *)
Definition pre_loop (lines : list TrackSegment) (indexStartPre : nat)
    (ev : ExerciseEvent) (event_stats : EventStats) : outcome (nat * ExerciseEvent) :=
  while_below (budget lines) lines
    (fun l => time (point_a l) <=? timestamp_mid_start event_stats)
    add_pre_event indexStartPre ev.

(** The body of [if lines[index].speed.km < self.min_speed:] up to
    [eventList.append(event)]; it returns the index reached, the
    statistics and the event. *)
Definition detect_event (self : InterruptionProcessor)
    (lines : list TrackSegment) (index : nat) (event_stats : EventStats)
    (l : TrackSegment) : outcome (nat * EventStats * ExerciseEvent) :=
  let ev := mkExerciseEvent [] [] [] None UNDEFINED in
  let event_stats := set_index_start event_stats index in
  let event_stats := set_timestamp_mid_start event_stats (time (point_a l)) in
  '(index, (ev, event_stats)) <- run_loop self lines index ev event_stats ;;
  let event_stats := set_index_end event_stats (index - 1) in
  mid <- datetime_add (timestamp_mid_start event_stats)
           (timedelta_half
              (timestamp_mid_end event_stats - timestamp_mid_start event_stats)) ;;
  let event_stats := set_timestamp_mid event_stats mid in
  let ev := set_event_type ev (determine_event_type event_stats lines) in
  d <- timedelta (time_interval self + 1) ;;
  post_end <- datetime_add (timestamp_mid_end event_stats) d ;;
  let event_stats := set_timestamp_post_end event_stats post_end in
  d <- timedelta (time_interval self) ;;
  pre_start <- datetime_sub (timestamp_mid_start event_stats) d ;;
  let event_stats := set_timestamp_pre_start event_stats pre_start in
  let indexPost := index in
  '(indexPost, ev) <- post_loop lines indexPost ev event_stats ;;
  let indexStartPre := 0%nat in
  indexStartPre <- pre_skip_loop (budget lines) lines indexStartPre event_stats ;;
  '(indexStartPre, ev) <- pre_loop lines indexStartPre ev event_stats ;;
  Ok (index, event_stats, ev).

(** [while index < len(lines):] with its closing [index += 1].  Next to
    every event the loop keeps the [EventStats] computed for it, which
    the source drops. *)
Fixpoint parse_events_loop (fuel : nat) (self : InterruptionProcessor)
    (lines : list TrackSegment) (index : nat)
    (eventList : list (EventStats * ExerciseEvent))
    : outcome (list (EventStats * ExerciseEvent)) :=
  match fuel with
  | O => OutOfFuel
  | S fuel' =>
    match nth_error lines index with
    | Some l =>
      let event_stats := new_EventStats in
      if speed l <? min_speed self then
        '(index, event_stats, ev) <- detect_event self lines index event_stats l ;;
        parse_events_loop fuel' self lines (S index) (eventList ++ [(event_stats, ev)])
      else parse_events_loop fuel' self lines (S index) eventList
    | None => Ok eventList
    end
  end.

(** [parse_events] on a list of segments, with the statistics of each event. *)
Definition parse_events_stats (self : InterruptionProcessor)
    (lines : list TrackSegment) : outcome (list (EventStats * ExerciseEvent)) :=
  parse_events_loop (budget lines) self lines 0 [].

(** The argument of [parse_events]: a list of segments, or the [dict] of a
    track record. *)
Inductive parse_input : Type :=
| Segments (lines : list TrackSegment)
| Track (tcx_data : TrackData).

Section ParseEvents.

Variable segment_speed : TrackPoint -> TrackPoint -> option Z -> Z.

Definition parse_events (self : InterruptionProcessor) (input : parse_input)
    : outcome (list ExerciseEvent) :=
  lines <- match input with
           | Track tcx_data => data_to_lines segment_speed tcx_data
           | Segments lines => Ok lines
           end ;;
  stats <- parse_events_stats self lines ;;
  Ok (map snd stats).

End ParseEvents.

(** ** Event classifier: [classify_event] *)

(** A node of the [overpy.Result] returned by the feature service. *)
Record Node : Type := mkNode {
  lat : Z;
  lon : Z
}.

Section Classifier.

(** [Overpass] and [CoordinatesBox] are declared in overpass.py, which
    is not part of these sources, and the geodesic distance comes from
    geopy.  [identify_intersections url event box] stands for
    [Overpass(url).identify_intersections(event, box).nodes]: the
    service answers with nodes or the call raises.
    [distance_meters a b] stands for [distance.distance(a, b).meters]. *)
Variable Box : Type.
Variable CoordinatesBox : ExerciseEvent -> Box.
Variable identify_intersections :
  string -> ExerciseEvent -> Box -> outcome (list Node).
Variable distance_meters : Z * Z -> Z * Z -> Z.

(** The body of the inner [for]; the state is [(min_distance, event)].
    The keyword arguments of [EventLocation] are written as in the
    source: [longitude=nodes[i].lat, latitude=nodes[i].lon]. *)
Definition classify_body (e : nat) (s : Z * ExerciseEvent) (i : nat)
    (nodes : list Node) : outcome (Z * ExerciseEvent) :=
  let '(min_distance, ev) := s in
  seg <- item (event ev) e ;;
  let event_location := (latitude (point_a seg), longitude (point_a seg)) in
  node <- item nodes i ;;
  let intersection_location := (lat node, lon node) in
  let calculated_distance := distance_meters event_location intersection_location in
  if (calculated_distance <? 22) && (calculated_distance <? min_distance) then
    Ok (calculated_distance,
        set_event_detail ev
          {| location := {| loc_longitude := lat node; loc_latitude := lon node |};
             type := INTERSECTION |})
  else Ok (min_distance, ev).

Definition classify_event (self : InterruptionProcessor) (ev : ExerciseEvent)
    : outcome ExerciseEvent :=
  let box := CoordinatesBox ev in
  possible_intersections <- identify_intersections (overpass_api_url self) ev box ;;
  let events := length (event ev) in
  let intersections := length possible_intersections in
  let min_distance := 1000000 in
  s <- for_range events
         (fun s e =>
            for_range intersections
              (fun s i => classify_body e s i possible_intersections) s)
         (min_distance, ev) ;;
  Ok (snd s).

(** [events(lines, classify)] *)
Definition classify_all (self : InterruptionProcessor)
    (evs : list ExerciseEvent) : outcome (list ExerciseEvent) :=
  fold_left (fun acc e => classified_events <- acc ;;
                          c <- classify_event self e ;;
                          Ok (classified_events ++ [c]))
    evs (Ok []).

End Classifier.

(** * Specification vocabulary *)

(** ** Events *)

(** What [parse_events] has established about an event and its
    statistics when it appends the event to [eventList]. *)
Record event_spec (self : InterruptionProcessor) (lines : list TrackSegment)
    (stats : EventStats) (ev : ExerciseEvent) : Prop := {
  es_bounds :
    (index_start stats <= index_end stats < length lines)%nat;
  es_event :
    event ev = slice lines (index_start stats) (S (index_end stats));
  es_below :
    Forall (fun l => speed l < min_speed self) (event ev);
  es_after :
    forall l, nth_error lines (S (index_end stats)) = Some l ->
              min_speed self <= speed l;
  es_type :
    event_type ev = determine_event_type stats lines;
  es_detail :
    event_detail ev = None;
  es_mid_start :
    exists l, nth_error lines (index_start stats) = Some l /\
              timestamp_mid_start stats = time (point_a l);
  es_mid_end :
    exists l, nth_error lines (index_end stats) = Some l /\
              timestamp_mid_end stats = time (point_b l);
  es_mid :
    timestamp_mid stats =
      timestamp_mid_start stats +
      timedelta_half (timestamp_mid_end stats - timestamp_mid_start stats);
  es_pre_start :
    timestamp_pre_start stats =
      timestamp_mid_start stats - timedelta_seconds (time_interval self);
  es_post_end :
    timestamp_post_end stats =
      timestamp_mid_end stats + timedelta_seconds (time_interval self + 1);
  es_post :
    exists k, (S (index_end stats) <= k <= length lines)%nat /\
      post_event ev = slice lines (S (index_end stats)) k /\
      Forall (fun l => time (point_a l) < timestamp_post_end stats)
        (post_event ev) /\
      (forall l, nth_error lines k = Some l ->
                 timestamp_post_end stats <= time (point_a l));
  es_pre :
    exists j k, (j <= k <= length lines)%nat /\
      pre_event ev = slice lines j k /\
      (forall i l, (i < j)%nat -> nth_error lines i = Some l ->
                   time (point_a l) < timestamp_pre_start stats) /\
      (exists l, nth_error lines j = Some l /\
                 timestamp_pre_start stats <= time (point_a l)) /\
      Forall (fun l => time (point_a l) <= timestamp_mid_start stats)
        (pre_event ev) /\
      (forall l, nth_error lines k = Some l ->
                 timestamp_mid_start stats < time (point_a l))
}.

Ltac stats_simpl :=
  unfold set_index_start, set_index_end, set_timestamp_pre_start,
    set_timestamp_mid_start, set_timestamp_mid, set_timestamp_mid_end,
    set_timestamp_post_end, new_EventStats, set_event_type in *;
  cbn [index_start index_end timestamp_pre_start timestamp_mid_start
       timestamp_mid timestamp_mid_end timestamp_post_end
       pre_event event post_event event_detail event_type
       app fst snd] in *.

(** The segment just before [index], if there is one, is at or above the
    threshold: what the scanning loop knows whenever it tests
    [index < len(lines)]. *)
Definition closed_before (self : InterruptionProcessor)
    (lines : list TrackSegment) (index : nat) : Prop :=
  forall i l, index = S i -> nth_error lines i = Some l ->
              min_speed self <= speed l.

(** An event of the result: its own properties and the segment before
    its run. *)
Definition event_ok (self : InterruptionProcessor) (lines : list TrackSegment)
    (p : EventStats * ExerciseEvent) : Prop :=
  event_spec self lines (fst p) (snd p) /\
  closed_before self lines (index_start (fst p)).

(** ** The range of the window arithmetic *)

(** For a run that starts at time [a] and ends at time [b], the
    midpoint, the two [timedelta] values and the two ends of the window
    all fit their types. *)
Definition window_in_range (self : InterruptionProcessor) (a b : Z) : bool :=
  is_datetime (a + timedelta_half (b - a)) &&
  is_timedelta (timedelta_seconds (time_interval self + 1)) &&
  is_datetime (b + timedelta_seconds (time_interval self + 1)) &&
  is_timedelta (timedelta_seconds (time_interval self)) &&
  is_datetime (a - timedelta_seconds (time_interval self)).

(** The times of every segment are [datetime] values and stay so when
    the window is taken off the start time and added, with one second
    more, to the end time. *)
Definition window_fits (self : InterruptionProcessor)
    (lines : list TrackSegment) : bool :=
  is_timedelta (timedelta_seconds (time_interval self + 1)) &&
  is_timedelta (timedelta_seconds (time_interval self)) &&
  forallb (fun l =>
             is_datetime (time (point_a l)) &&
             is_datetime (time (point_b l)) &&
             is_datetime (time (point_a l) - timedelta_seconds (time_interval self)) &&
             is_datetime (time (point_b l)
                          + timedelta_seconds (time_interval self + 1)))
    lines.

(** ** Chronological order *)

(** The start time of each segment, [point_a.time]. *)
Definition start_times (lines : list TrackSegment) : list Z :=
  map (fun l => time (point_a l)) lines.

(** Every time is strictly before the next one. *)
Fixpoint increasing (ts : list Z) : bool :=
  match ts with
  | [] => true
  | t :: rest =>
    match rest with
    | [] => true
    | u :: _ => (t <? u) && increasing rest
    end
  end.

(** No time is after the next one. *)
Fixpoint nondecreasing (ts : list Z) : bool :=
  match ts with
  | [] => true
  | t :: rest =>
    match rest with
    | [] => true
    | u :: _ => (t <=? u) && nondecreasing rest
    end
  end.

(** ** Sample tracks and events *)

(** A one-second segment starting [start] seconds after the epoch, with
    speed [v] km/h. *)
Definition segment_at (start v : Z) : TrackSegment :=
  mkTrackSegment (set_time empty_point (timedelta_seconds start))
    (set_time empty_point (timedelta_seconds (start + 1))) v None.

(** Speeds 10, 10, 1, 1, 1, 10, 10: one pause in the middle. *)
Definition pause_track : list TrackSegment :=
  [segment_at 0 10; segment_at 1 10; segment_at 2 1; segment_at 3 1;
   segment_at 4 1; segment_at 5 10; segment_at 6 10].

(** A single segment at rest: the run is the whole track. *)
Definition still_track : list TrackSegment := [segment_at 0 0].

Definition events_with_stats (self : InterruptionProcessor)
    (lines : list TrackSegment) : list (EventStats * ExerciseEvent) :=
  match parse_events_stats self lines with
  | Ok res => res
  | _ => []
  end.

Definition first_event (self : InterruptionProcessor)
    (lines : list TrackSegment) : EventStats * ExerciseEvent :=
  hd (new_EventStats, mkExerciseEvent [] [] [] None UNDEFINED)
    (events_with_stats self lines).

Definition constant_speed (v : Z) : TrackPoint -> TrackPoint -> option Z -> Z :=
  fun _ _ _ => v.

(** ** Statements that the program does not meet *)

(** The type of an event as the spec's property list words it: the three
    rules apply independently of each other. *)
Definition type_rules_apply_independently (self : InterruptionProcessor)
    (lines : list TrackSegment) : Prop :=
  forall res stats ev,
    parse_events_stats self lines = Ok res -> In (stats, ev) res ->
    (index_start stats = 0%nat -> event_type ev = EXERCISE_START) /\
    (index_end stats = (length lines - 1)%nat -> event_type ev = EXERCISE_STOP) /\
    (index_start stats <> 0%nat -> index_end stats <> (length lines - 1)%nat ->
     event_type ev = EXERCISE_PAUSE).

(** The pre-window as the spec's error-handling section words it: the
    scan returns, and an event whose run begins at the first sample has
    an empty [pre_event]. *)
Definition pre_window_empty_at_start (self : InterruptionProcessor)
    (lines : list TrackSegment) : Prop :=
  exists res,
    parse_events_stats self lines = Ok res /\
    forall stats ev, In (stats, ev) res -> index_start stats = 0%nat ->
                     pre_event ev = [].

(** ** Built segments *)

(** [xs[i]] when [xs] is as long as [positions], nothing otherwise. *)
Definition parallel_item (tcx_data : TrackData) (xs : list Z) (i : nat)
    : option Z :=
  if (length xs =? length (positions tcx_data))%nat then nth_error xs i else None.

Definition with_item (set : TrackPoint -> Z -> TrackPoint) (o : option Z)
    (p : TrackPoint) : TrackPoint :=
  match o with
  | Some v => set p v
  | None => p
  end.

(** The endpoint the builder makes of sample [i]. *)
Definition sample_point (tcx_data : TrackData) (i : nat) : TrackPoint :=
  let pos := nth i (positions tcx_data) (0, 0) in
  let p := set_time (set_longitude (set_latitude empty_point (fst pos)) (snd pos))
             (nth i (timestamps tcx_data) 0) in
  let p := with_item set_elevation (parallel_item tcx_data (altitudes tcx_data) i) p in
  let p := with_item set_heartrate (parallel_item tcx_data (heartrates tcx_data) i) p in
  let p := with_item set_distance (parallel_item tcx_data (distances tcx_data) i) p in
  with_item set_distance (parallel_item tcx_data (speeds tcx_data) i) p.

(** What the builder has established about the segment at index [i] of
    its result [lines]. *)
Definition segment_built
    (segment_speed : TrackPoint -> TrackPoint -> option Z -> Z)
    (tcx_data : TrackData) (lines : list TrackSegment) (i : nat)
    (seg : TrackSegment) : Prop :=
  point_a seg = sample_point tcx_data i /\
  point_b seg = sample_point tcx_data (S i) /\
  prev_speed seg = match i with
                   | O => None
                   | S i' => option_map speed (nth_error lines i')
                   end /\
  speed seg = segment_speed (point_a seg) (point_b seg) (prev_speed seg).

(** Three samples a second apart, about eleven metres from each other,
    with no optional data. *)
Definition three_samples : TrackData :=
  mkTrackData
    [(46000000, 14000000); (46000100, 14000000); (46000200, 14000000)]
    [0; 1000000; 2000000] [] [] [] [].

(** Two samples that come with both distances and speeds. *)
Definition aliased_track : TrackData :=
  mkTrackData [(46000000, 14000000); (46000100, 14000000)]
    [0; 1000000] [] [] [0; 100] [5; 6].

(** The previous speed as C8 words it: null for the first and for the
    second segment, the previous segment's speed from the third on. *)
Definition prev_speed_null_twice
    (segment_speed : TrackPoint -> TrackPoint -> option Z -> Z)
    (tcx_data : TrackData) : Prop :=
  exists lines,
    data_to_lines segment_speed tcx_data = Ok lines /\
    (forall seg, nth_error lines 0 = Some seg -> prev_speed seg = None) /\
    (forall seg, nth_error lines 1 = Some seg -> prev_speed seg = None) /\
    (forall i seg p, (2 <= i)%nat -> nth_error lines i = Some seg ->
       nth_error lines (i - 1) = Some p -> prev_speed seg = Some (speed p)).

(** ** The scan of the classifier *)

(** The detail [classify_event] makes of a node. *)
Definition detail_of (node : Node) : EventDetail :=
  {| location := {| loc_longitude := lat node; loc_latitude := lon node |};
     type := INTERSECTION |}.

(** One comparison of the double loop, on the state
    [(min_distance, event)]. *)
Definition classify_step (distance_meters : Z * Z -> Z * Z -> Z)
    (s : Z * ExerciseEvent) (pair : TrackSegment * Node) : Z * ExerciseEvent :=
  let d := distance_meters
             (latitude (point_a (fst pair)), longitude (point_a (fst pair)))
             (lat (snd pair), lon (snd pair)) in
  if (d <? 22) && (d <? fst s) then (d, set_event_detail (snd s) (detail_of (snd pair)))
  else s.

(** The pairs in the order the double loop visits them. *)
Definition scan_pairs (segs : list TrackSegment) (nodes : list Node)
    : list (TrackSegment * Node) :=
  flat_map (fun seg => map (pair seg) nodes) segs.

(** The distance the double loop computes for a pair. *)
Definition pair_distance (distance_meters : Z * Z -> Z * Z -> Z)
    (pr : TrackSegment * Node) : Z :=
  distance_meters (latitude (point_a (fst pr)), longitude (point_a (fst pr)))
    (lat (snd pr), lon (snd pr)).

(** What the double loop has established after the pairs [done]: nothing
    within 22 metres so far and the event untouched, or the first of the
    closest pairs, which is within 22 metres and gave the detail. *)
Definition scan_state (distance_meters : Z * Z -> Z * Z -> Z)
    (ev : ExerciseEvent) (done : list (TrackSegment * Node))
    (s : Z * ExerciseEvent) : Prop :=
  (fst s = 1000000 /\ snd s = ev /\
   Forall (fun q => 22 <= pair_distance distance_meters q) done) \/
  (exists before pr after,
     done = before ++ pr :: after /\
     fst s = pair_distance distance_meters pr /\
     pair_distance distance_meters pr < 22 /\
     Forall (fun q => pair_distance distance_meters pr
                      < pair_distance distance_meters q) before /\
     Forall (fun q => pair_distance distance_meters pr
                      <= pair_distance distance_meters q) after /\
     snd s = set_event_detail ev (detail_of (snd pr))).

(** ** Sample feature services *)

(** A stand-in for the geodesic distance, in metres, between points
    given in millionths of a degree: about 0.111 m for each millionth
    along either axis.  It is used to run the classifier on samples. *)
Definition grid_distance (a b : Z * Z) : Z :=
  (Z.abs (fst a - fst b) + Z.abs (snd a - snd b)) * 111 / 1000.

Definition no_box (ev : ExerciseEvent) : unit := tt.

(** A feature service that is down. *)
Definition failing_service (url : string) (ev : ExerciseEvent) (box : unit)
    : outcome (list Node) :=
  Raise (ServiceError "timeout").

(** A feature service that knows one intersection, about eleven metres
    north of latitude 46, longitude 14. *)
Definition crossing : Node := mkNode 46000100 14000000.

Definition one_crossing_service (url : string) (ev : ExerciseEvent) (box : unit)
    : outcome (list Node) :=
  Ok [crossing].

(** A pause of one segment at latitude 46, longitude 14. *)
Definition pause_at_crossing : ExerciseEvent :=
  let p := set_longitude (set_latitude empty_point 46000000) 14000000 in
  mkExerciseEvent [] [mkTrackSegment (set_time p 0) (set_time p 1000000) 0 None]
    [] None EXERCISE_PAUSE.

(** C6 as stated: a failure of the feature service is absorbed by
    [classify_event], which returns the event with its detail as it was. *)
Definition service_failure_is_absorbed (Box : Type)
    (CoordinatesBox : ExerciseEvent -> Box)
    (identify_intersections : string -> ExerciseEvent -> Box -> outcome (list Node))
    (distance_meters : Z * Z -> Z * Z -> Z)
    (self : InterruptionProcessor) (ev : ExerciseEvent) : Prop :=
  forall e,
    identify_intersections (overpass_api_url self) ev (CoordinatesBox ev) = Raise e ->
    exists ev',
      classify_event Box CoordinatesBox identify_intersections distance_meters
        self ev = Ok ev' /\
      event_detail ev' = event_detail ev.

(** ** More vocabulary: the scan as a whole, and [events] *)

(** [lines[index].speed.km < self.min_speed] *)
Definition below_threshold (self : InterruptionProcessor) (l : TrackSegment)
    : bool :=
  speed l <? min_speed self.

(** The core runs of a result, one after the other. *)
Definition core_segments (res : list (EventStats * ExerciseEvent))
    : list TrackSegment :=
  concat (map (fun p => event (snd p)) res).

(** The runs of a result lie in order from index [lo] on, and one segment
    at least separates a run from the next. *)
Fixpoint well_separated (lo : nat) (res : list (EventStats * ExerciseEvent))
    : Prop :=
  match res with
  | [] => True
  | p :: rest =>
    (lo <= index_start (fst p))%nat /\
    (index_start (fst p) <= index_end (fst p))%nat /\
    well_separated (index_end (fst p) + 2) rest
  end.

Section Events.

Variable segment_speed : TrackPoint -> TrackPoint -> option Z -> Z.
Variable Box : Type.
Variable CoordinatesBox : ExerciseEvent -> Box.
Variable identify_intersections :
  string -> ExerciseEvent -> Box -> outcome (list Node).
Variable distance_meters : Z * Z -> Z * Z -> Z.

(** [events(self, lines, classify=False)] *)
Definition events (self : InterruptionProcessor) (input : parse_input)
    (classify : bool) : outcome (list ExerciseEvent) :=
  evs <- parse_events segment_speed self input ;;
  if classify then
    classify_all Box CoordinatesBox identify_intersections distance_meters self evs
  else Ok evs.

End Events.

(** Speeds 1, 10, 1: the track starts and ends at rest. *)
Definition stop_and_go_track : list TrackSegment :=
  [segment_at 0 1; segment_at 1 10; segment_at 2 1].

(** Three positions with only two timestamps. *)
Definition short_timestamps : TrackData :=
  mkTrackData
    [(46000000, 14000000); (46000100, 14000000); (46000200, 14000000)]
    [0; 1000000] [] [] [] [].

(** Three samples with altitudes for each of them and one heart rate. *)
Definition partial_data : TrackData :=
  mkTrackData
    [(46000000, 14000000); (46000100, 14000000); (46000200, 14000000)]
    [0; 1000000; 2000000] [300; 301; 302] [120] [] [].

(** Two events that differ at most in their detail. *)
Definition same_but_detail (ev ev' : ExerciseEvent) : Prop :=
  pre_event ev' = pre_event ev /\
  event ev' = event ev /\
  post_event ev' = post_event ev /\
  event_type ev' = event_type ev.

(** A feature service that knows a far node, the crossing, and a node
    as near as the crossing, in this order. *)
Definition three_node_service (url : string) (ev : ExerciseEvent) (box : unit)
    : outcome (list Node) :=
  Ok [mkNode 46010000 14000000; crossing; mkNode 45999900 14000000].

(** A feature service with nothing to report. *)
Definition silent_service (url : string) (ev : ExerciseEvent) (box : unit)
    : outcome (list Node) :=
  Ok [].

(** Speeds 1, 10, 1, 10, 1: a start, a pause and a stop. *)
Definition three_stops_track : list TrackSegment :=
  [segment_at 0 1; segment_at 1 10; segment_at 2 1; segment_at 3 10;
   segment_at 4 1].

(** A feature service that is down for pauses only. *)
Definition fails_on_pause_service (url : string) (ev : ExerciseEvent) (box : unit)
    : outcome (list Node) :=
  match event_type ev with
  | EXERCISE_PAUSE => Raise (ServiceError "timeout")
  | _ => Ok [crossing]
  end.

(** The event at index [i] of the result of [parse_events]. *)
Definition nth_event (self : InterruptionProcessor)
    (lines : list TrackSegment) (i : nat) : ExerciseEvent :=
  snd (nth i (events_with_stats self lines) (first_event self lines)).

(** The loop of [events] from a given list of classified events on. *)
Definition classify_loop (Box : Type) (CoordinatesBox : ExerciseEvent -> Box)
    (identify_intersections : string -> ExerciseEvent -> Box -> outcome (list Node))
    (distance_meters : Z * Z -> Z * Z -> Z) (self : InterruptionProcessor)
    (evs : list ExerciseEvent) (acc : outcome (list ExerciseEvent))
    : outcome (list ExerciseEvent) :=
  fold_left (fun acc e => classified_events <- acc ;;
                          c <- classify_event Box CoordinatesBox
                                 identify_intersections distance_meters self e ;;
                          Ok (classified_events ++ [c]))
    evs acc.

(** The feature service answers for this event. *)
Definition answered (Box : Type) (CoordinatesBox : ExerciseEvent -> Box)
    (identify_intersections : string -> ExerciseEvent -> Box -> outcome (list Node))
    (self : InterruptionProcessor) (ev : ExerciseEvent) : Prop :=
  exists nodes,
    identify_intersections (overpass_api_url self) ev (CoordinatesBox ev) = Ok nodes.

(** * Properties *)

(** ** Lists and slices *)

Lemma skipn_nth_error_cons {A : Type} (xs : list A) :
  forall (a : nat) (l : A),
    nth_error xs a = Some l -> skipn a xs = l :: skipn (S a) xs.
Proof.
  induction xs as [|x xs IH]; intros a l H.
  - destruct a; discriminate.
  - destruct a as [|a].
    + simpl in H. injection H as ->. reflexivity.
    + simpl in H. apply IH in H. exact H.
Qed.

Lemma slice_nil {A : Type} (xs : list A) (a b : nat) :
  (b <= a)%nat -> slice xs a b = [].
Proof.
  intros H. unfold slice. replace (b - a)%nat with 0%nat by lia. reflexivity.
Qed.

Lemma slice_cons {A : Type} (xs : list A) (a b : nat) (l : A) :
  (a < b)%nat -> nth_error xs a = Some l ->
  slice xs a b = l :: slice xs (S a) b.
Proof.
  intros Hab H. unfold slice.
  rewrite (skipn_nth_error_cons xs a l H).
  replace (b - a)%nat with (S (b - S a)) by lia. reflexivity.
Qed.

Lemma slice_length {A : Type} (xs : list A) (a b : nat) :
  (b <= length xs)%nat -> length (slice xs a b) = (b - a)%nat.
Proof.
  intros H. unfold slice. rewrite length_firstn, length_skipn. lia.
Qed.

Lemma nth_error_slice {A : Type} (xs : list A) (a b i : nat) :
  (i < b - a)%nat -> nth_error (slice xs a b) i = nth_error xs (a + i).
Proof.
  intros H. unfold slice. rewrite nth_error_firstn.
  destruct (Nat.ltb_spec i (b - a)); [|lia].
  apply nth_error_skipn.
Qed.

Lemma firstn_plus {A : Type} (m n : nat) :
  forall xs : list A, firstn (m + n) xs = firstn m xs ++ firstn n (skipn m xs).
Proof.
  induction m as [|m IH]; intros xs.
  - reflexivity.
  - destruct xs as [|x xs].
    + simpl. rewrite firstn_nil. reflexivity.
    + simpl. rewrite IH. reflexivity.
Qed.

Lemma slice_app {A : Type} (xs : list A) (a b c : nat) :
  (a <= b)%nat -> (b <= c)%nat ->
  slice xs a c = slice xs a b ++ slice xs b c.
Proof.
  intros Hab Hbc. unfold slice.
  replace (c - a)%nat with ((b - a) + (c - b))%nat by lia.
  rewrite firstn_plus. f_equal.
  rewrite skipn_skipn. replace (b - a + a)%nat with b by lia. reflexivity.
Qed.

Lemma slice_In {A : Type} (xs : list A) (a b : nat) (l : A) :
  In l (slice xs a b) ->
  exists i, (a <= i < b)%nat /\ nth_error xs i = Some l.
Proof.
  intros H. apply In_nth_error in H. destruct H as [i Hi].
  assert (Hlt : (i < length (slice xs a b))%nat)
    by (apply nth_error_Some; congruence).
  assert (Hlen : (length (slice xs a b) <= b - a)%nat)
    by (unfold slice; rewrite length_firstn; lia).
  rewrite nth_error_slice in Hi by lia.
  exists (a + i)%nat. split; [lia | exact Hi].
Qed.

(** ** The guarded forward loop *)

Lemma while_below_spec {A St : Type} (cond : A -> bool) (body : St -> A -> St)
    (lines : list A) :
  forall (fuel index : nat) (s : St),
    (length lines <= fuel + index)%nat ->
    exists index',
      (index <= index')%nat /\
      (index' <= Nat.max index (length lines))%nat /\
      while_below (S fuel) lines cond body index s
        = Ok (index', fold_left body (slice lines index index') s) /\
      Forall (fun l => cond l = true) (slice lines index index') /\
      (forall l, nth_error lines index' = Some l -> cond l = false).
Proof.
  induction fuel as [|fuel IH]; intros index s Hfuel.
  - assert (Hnone : nth_error lines index = None)
      by (apply nth_error_None; lia).
    exists index. simpl. rewrite Hnone, slice_nil by lia.
    repeat split; try lia; try constructor. intros l Hl. congruence.
  - cbn [while_below]. destruct (nth_error lines index) as [l|] eqn:Hl.
    + destruct (cond l) eqn:Hc.
      * destruct (IH (S index) (body s l)) as (i' & Hle & Hmax & Hrun & Hall & Hstop);
          [lia|].
        assert (Hlt : (index < length lines)%nat)
          by (apply nth_error_Some; congruence).
        exists i'. rewrite (slice_cons lines index i' l) by (lia || assumption).
        repeat split; try lia; auto.
      * exists index. rewrite slice_nil by lia.
        repeat split; try lia; try constructor.
        intros l' Hl'. congruence.
    + exists index. rewrite slice_nil by lia.
      repeat split; try lia; try constructor.
      intros l' Hl'. congruence.
Qed.

(** ** What the loops of [parse_events] compute *)

Lemma fold_add_event (xs : list TrackSegment) :
  forall ev, fold_left add_event xs ev =
    mkExerciseEvent (pre_event ev) (event ev ++ xs) (post_event ev)
      (event_detail ev) (event_type ev).
Proof.
  induction xs as [|x xs IH]; intros ev; simpl.
  - rewrite app_nil_r. destruct ev; reflexivity.
  - rewrite IH. simpl. rewrite <- app_assoc. reflexivity.
Qed.

Lemma fold_add_post_event (xs : list TrackSegment) :
  forall ev, fold_left add_post_event xs ev =
    mkExerciseEvent (pre_event ev) (event ev) (post_event ev ++ xs)
      (event_detail ev) (event_type ev).
Proof.
  induction xs as [|x xs IH]; intros ev; simpl.
  - rewrite app_nil_r. destruct ev; reflexivity.
  - rewrite IH. simpl. rewrite <- app_assoc. reflexivity.
Qed.

Lemma fold_add_pre_event (xs : list TrackSegment) :
  forall ev, fold_left add_pre_event xs ev =
    mkExerciseEvent (pre_event ev ++ xs) (event ev) (post_event ev)
      (event_detail ev) (event_type ev).
Proof.
  induction xs as [|x xs IH]; intros ev; simpl.
  - rewrite app_nil_r. destruct ev; reflexivity.
  - rewrite IH. simpl. rewrite <- app_assoc. reflexivity.
Qed.

(** The state of the run loop after the segments [xs]: they are appended
    to [event], and [timestamp_mid_end] is the end time of the last one. *)
Lemma fold_run_body (xs : list TrackSegment) :
  forall (ev : ExerciseEvent) (st : EventStats),
    fold_left
      (fun s l => (add_event (fst s) l,
                   set_timestamp_mid_end (snd s) (time (point_b l))))
      xs (ev, st)
    = (fold_left add_event xs ev,
       mkEventStats (index_start st) (index_end st) (timestamp_pre_start st)
         (timestamp_mid_start st) (timestamp_mid st)
         (fold_left (fun _ l => time (point_b l)) xs (timestamp_mid_end st))
         (timestamp_post_end st)).
Proof.
  induction xs as [|x xs IH]; intros ev st; simpl.
  - destruct st; reflexivity.
  - rewrite IH. reflexivity.
Qed.

Lemma pre_skip_loop_ok (lines : list TrackSegment) (st : EventStats) :
  forall (fuel index i : nat),
    pre_skip_loop fuel lines index st = Ok i ->
    (index <= i)%nat /\
    (exists l, nth_error lines i = Some l /\
               timestamp_pre_start st <= time (point_a l)) /\
    (forall k l, (index <= k < i)%nat -> nth_error lines k = Some l ->
                 time (point_a l) < timestamp_pre_start st).
Proof.
  induction fuel as [|fuel IH]; intros index i H; [discriminate|].
  cbn [pre_skip_loop] in H. unfold item in H.
  destruct (nth_error lines index) as [l|] eqn:Hl; [|discriminate].
  cbn [bind] in H.
  destruct (Z.ltb_spec (time (point_a l)) (timestamp_pre_start st)) as [Hlt|Hge].
  - apply IH in H. destruct H as (Hle & Hstop & Hskip).
    split; [lia|]. split; [exact Hstop|].
    intros k lk Hk Hlk.
    destruct (Nat.eq_dec k index) as [->|Hne].
    + congruence.
    + apply (Hskip k lk); [lia | exact Hlk].
  - injection H as <-. split; [lia|]. split.
    + exists l. split; [exact Hl | lia].
    + intros k lk Hk. lia.
Qed.

Lemma pre_skip_loop_returns (lines : list TrackSegment) (st : EventStats) :
  forall (fuel index j : nat) (l : TrackSegment),
    (index <= j)%nat -> (j < fuel + index)%nat ->
    nth_error lines j = Some l ->
    timestamp_pre_start st <= time (point_a l) ->
    exists i, (i <= j)%nat /\ pre_skip_loop fuel lines index st = Ok i.
Proof.
  induction fuel as [|fuel IH]; intros index j l Hle Hfuel Hj Hstop; [lia|].
  cbn [pre_skip_loop]. unfold item.
  assert (Hlen : (j < length lines)%nat) by (apply nth_error_Some; congruence).
  destruct (nth_error lines index) as [li|] eqn:Hli.
  - cbn [bind].
    destruct (Z.ltb_spec (time (point_a li)) (timestamp_pre_start st)) as [Hlt|Hge].
    + assert (index <> j) by (intros ->; rewrite Hj in Hli; injection Hli as ->; lia).
      apply (IH (S index) j l); (lia || assumption).
    + exists index. split; [lia | reflexivity].
  - apply nth_error_None in Hli. lia.
Qed.

Lemma pre_skip_loop_fuel (lines : list TrackSegment) (st : EventStats) :
  forall (fuel index : nat),
    (length lines <= fuel + index)%nat ->
    pre_skip_loop (S fuel) lines index st <> OutOfFuel.
Proof.
  induction fuel as [|fuel IH]; intros index Hfuel;
    cbn [pre_skip_loop]; unfold item.
  - assert (Hnone : nth_error lines index = None) by (apply nth_error_None; lia).
    rewrite Hnone. discriminate.
  - destruct (nth_error lines index) as [l|]; [|discriminate].
    cbn [bind]. destruct (time (point_a l) <? timestamp_pre_start st);
      [|discriminate].
    apply IH. lia.
Qed.

(** ** One detected event *)

Lemma fold_end_time (lines : list TrackSegment) (a b : nat) (d : Z) :
  (a < b)%nat -> (b <= length lines)%nat ->
  exists l, nth_error lines (b - 1) = Some l /\
    fold_left (fun _ l => time (point_b l)) (slice lines a b) d
      = time (point_b l).
Proof.
  intros Hab Hb.
  destruct (nth_error lines (b - 1)) as [l|] eqn:Hl.
  - exists l. split; [reflexivity|].
    rewrite (slice_app lines a (b - 1) b) by lia.
    rewrite (slice_cons lines (b - 1) b l) by (lia || assumption).
    rewrite (slice_nil lines (S (b - 1)) b) by lia.
    rewrite fold_left_app. reflexivity.
  - apply nth_error_None in Hl. lia.
Qed.

(** The run loop started on a segment below the threshold takes it. *)
Lemma run_loop_spec (self : InterruptionProcessor) (lines : list TrackSegment)
    (index : nat) (l : TrackSegment) (ev : ExerciseEvent) (st : EventStats) :
  nth_error lines index = Some l ->
  speed l < min_speed self ->
  exists i1 l1,
    (index < i1 <= length lines)%nat /\
    nth_error lines (i1 - 1) = Some l1 /\
    run_loop self lines index ev st =
      Ok (i1,
          (mkExerciseEvent (pre_event ev) (event ev ++ slice lines index i1)
             (post_event ev) (event_detail ev) (event_type ev),
           mkEventStats (index_start st) (index_end st) (timestamp_pre_start st)
             (timestamp_mid_start st) (timestamp_mid st)
             (time (point_b l1)) (timestamp_post_end st))) /\
    Forall (fun l => speed l < min_speed self) (slice lines index i1) /\
    (forall l', nth_error lines i1 = Some l' -> min_speed self <= speed l').
Proof.
  intros Hl Hs. unfold run_loop, budget.
  match goal with |- context [while_below _ _ ?c ?b index ?s] =>
    destruct (while_below_spec c b lines (S (length lines)) index s)
      as (i1 & Hle & Hmax & Hrun & Hall & Hstop); [lia|]
  end.
  assert (Hlen : (index < length lines)%nat) by (apply nth_error_Some; congruence).
  assert (Hne : i1 <> index).
  { intros ->. specialize (Hstop l Hl). apply Z.ltb_ge in Hstop. lia. }
  destruct (fold_end_time lines index i1 (timestamp_mid_end st)) as (l1 & Hl1 & Hend);
    [lia | lia |].
  exists i1, l1. split; [lia|]. split; [exact Hl1|]. split.
  - rewrite Hrun, fold_run_body, fold_add_event, Hend. reflexivity.
  - split.
    + eapply Forall_impl; [|exact Hall]. intros a Ha. apply Z.ltb_lt. exact Ha.
    + intros l' Hl'. apply Z.ltb_ge. apply Hstop. exact Hl'.
Qed.

Lemma post_loop_spec (lines : list TrackSegment) (i : nat)
    (ev : ExerciseEvent) (st : EventStats) :
  exists k,
    (i <= k <= Nat.max i (length lines))%nat /\
    post_loop lines i ev st =
      Ok (k, mkExerciseEvent (pre_event ev) (event ev)
               (post_event ev ++ slice lines i k)
               (event_detail ev) (event_type ev)) /\
    Forall (fun l => time (point_a l) < timestamp_post_end st) (slice lines i k) /\
    (forall l, nth_error lines k = Some l ->
               timestamp_post_end st <= time (point_a l)).
Proof.
  unfold post_loop, budget.
  match goal with |- context [while_below _ _ ?c ?b i ?s] =>
    destruct (while_below_spec c b lines (S (length lines)) i s)
      as (k & Hle & Hmax & Hrun & Hall & Hstop); [lia|]
  end.
  exists k. split; [lia|]. split.
  - rewrite Hrun, fold_add_post_event. reflexivity.
  - split.
    + eapply Forall_impl; [|exact Hall]. intros a Ha. apply Z.ltb_lt. exact Ha.
    + intros l Hl. apply Z.ltb_ge. apply Hstop. exact Hl.
Qed.

Lemma pre_loop_spec (lines : list TrackSegment) (i : nat)
    (ev : ExerciseEvent) (st : EventStats) :
  exists k,
    (i <= k <= Nat.max i (length lines))%nat /\
    pre_loop lines i ev st =
      Ok (k, mkExerciseEvent (pre_event ev ++ slice lines i k) (event ev)
               (post_event ev) (event_detail ev) (event_type ev)) /\
    Forall (fun l => time (point_a l) <= timestamp_mid_start st) (slice lines i k) /\
    (forall l, nth_error lines k = Some l ->
               timestamp_mid_start st < time (point_a l)).
Proof.
  unfold pre_loop, budget.
  match goal with |- context [while_below _ _ ?c ?b i ?s] =>
    destruct (while_below_spec c b lines (S (length lines)) i s)
      as (k & Hle & Hmax & Hrun & Hall & Hstop); [lia|]
  end.
  exists k. split; [lia|]. split.
  - rewrite Hrun, fold_add_pre_event. reflexivity.
  - split.
    + eapply Forall_impl; [|exact Hall]. intros a Ha. apply Z.leb_le. exact Ha.
    + intros l Hl. apply Z.leb_gt. apply Hstop. exact Hl.
Qed.

Lemma pre_skip_loop_raises (lines : list TrackSegment) (st : EventStats) :
  forall (fuel index : nat) (e : exn),
    pre_skip_loop fuel lines index st = Raise e -> e = IndexError.
Proof.
  induction fuel as [|fuel IH]; intros index e H; [discriminate|].
  cbn [pre_skip_loop] in H. unfold item in H.
  destruct (nth_error lines index) as [l|]; cbn [bind] in H.
  - destruct (time (point_a l) <? timestamp_pre_start st);
      [eapply IH; exact H | discriminate].
  - congruence.
Qed.

(** Half of a [timedelta] lies between zero and the [timedelta]. *)
Lemma timedelta_half_between (d : Z) :
  (0 <= d -> 0 <= timedelta_half d <= d) /\
  (d <= 0 -> d <= timedelta_half d <= 0).
Proof.
  unfold timedelta_half. cbv zeta.
  assert (Hdiv : d = 2 * (d / 2) + d mod 2) by (apply Z.div_mod; lia).
  assert (Hmod : 0 <= d mod 2 < 2) by (apply Z.mod_pos_bound; lia).
  destruct (Z.even d) eqn:Hd.
  - split; intros; lia.
  - assert (Hodd : d mod 2 = 1).
    { rewrite Zeven_mod in Hd. apply Z.eqb_neq in Hd. lia. }
    destruct (Z.even (d / 2)); split; intros; lia.
Qed.

Lemma is_datetime_between (a b t : Z) :
  is_datetime a = true -> is_datetime b = true ->
  (a <= t <= b \/ b <= t <= a) -> is_datetime t = true.
Proof.
  unfold is_datetime. intros Ha Hb Ht.
  apply andb_true_iff in Ha. apply andb_true_iff in Hb.
  destruct Ha as [Ha1 Ha2]. destruct Hb as [Hb1 Hb2].
  apply Z.leb_le in Ha1, Ha2, Hb1, Hb2.
  apply andb_true_iff. split; apply Z.leb_le; lia.
Qed.

(** On a track whose window fits, the window arithmetic of every run is
    in range. *)
Lemma window_fits_in_range (self : InterruptionProcessor)
    (lines : list TrackSegment) (l l1 : TrackSegment) :
  window_fits self lines = true -> In l lines -> In l1 lines ->
  window_in_range self (time (point_a l)) (time (point_b l1)) = true.
Proof.
  unfold window_fits, window_in_range. intros H Hl Hl1.
  apply andb_true_iff in H. destruct H as [H Hall].
  apply andb_true_iff in H. destruct H as [Hd1 Hd].
  rewrite forallb_forall in Hall.
  pose proof (Hall _ Hl) as Ha. pose proof (Hall _ Hl1) as Hb.
  apply andb_true_iff in Ha. destruct Ha as [Ha _].
  apply andb_true_iff in Ha. destruct Ha as [Ha Hpre].
  apply andb_true_iff in Ha. destruct Ha as [Ha _].
  apply andb_true_iff in Hb. destruct Hb as [Hb Hpost].
  apply andb_true_iff in Hb. destruct Hb as [Hb _].
  apply andb_true_iff in Hb. destruct Hb as [_ Hb].
  rewrite Hd1, Hd, Hpre, Hpost.
  rewrite (is_datetime_between (time (point_a l)) (time (point_b l1)));
    [reflexivity | exact Ha | exact Hb |].
  pose proof (timedelta_half_between (time (point_b l1) - time (point_a l))).
  lia.
Qed.

(** The branch of [detect_event_cases] in which one of the range tests
    has failed. *)
Ltac out_of_range i1 l1 :=
  right; right; exists i1, l1;
  split; [lia|]; split; [assumption|]; split; [|reflexivity];
  unfold window_in_range;
  repeat match goal with H : _ = true |- _ => rewrite H end;
  match goal with H : _ = false |- _ => rewrite H end;
  reflexivity.

(** [detect_event] raises [IndexError] in the unguarded loop, returns an
    event that meets [event_spec], or raises [OverflowError] before it
    takes the windows, when their arithmetic is out of range. *)
Lemma detect_event_cases (self : InterruptionProcessor)
    (lines : list TrackSegment) (index : nat) (l : TrackSegment) :
  nth_error lines index = Some l ->
  speed l < min_speed self ->
  (exists i1 l1,
     (index < i1 <= length lines)%nat /\
     nth_error lines (i1 - 1) = Some l1 /\
     pre_skip_loop (budget lines) lines 0
       (mkEventStats index (i1 - 1)
          (time (point_a l) - timedelta_seconds (time_interval self))
          (time (point_a l))
          (time (point_a l) + timedelta_half (time (point_b l1) - time (point_a l)))
          (time (point_b l1))
          (time (point_b l1) + timedelta_seconds (time_interval self + 1)))
       = Raise IndexError /\
     detect_event self lines index new_EventStats l = Raise IndexError) \/
  (exists stats ev,
     detect_event self lines index new_EventStats l
       = Ok (S (index_end stats), stats, ev) /\
     index_start stats = index /\
     event_spec self lines stats ev) \/
  (exists i1 l1,
     (index < i1 <= length lines)%nat /\
     nth_error lines (i1 - 1) = Some l1 /\
     window_in_range self (time (point_a l)) (time (point_b l1)) = false /\
     detect_event self lines index new_EventStats l = Raise OverflowError).
Proof.
  intros Hl Hs. unfold detect_event.
  destruct (run_loop_spec self lines index l
              (mkExerciseEvent [] [] [] None UNDEFINED)
              (set_timestamp_mid_start (set_index_start new_EventStats index)
                 (time (point_a l))) Hl Hs)
    as (i1 & l1 & Hi1 & Hl1 & Hrun & Hbelow & Hafter).
  rewrite Hrun. cbn [bind]. stats_simpl.
  unfold datetime_add, datetime_sub, timedelta.
  destruct (is_datetime
              (time (point_a l)
               + timedelta_half (time (point_b l1) - time (point_a l)))) eqn:Hmid;
    [cbn [bind]; stats_simpl | out_of_range i1 l1].
  destruct (is_timedelta (timedelta_seconds (time_interval self + 1))) eqn:Hd1;
    [cbn [bind]; stats_simpl | out_of_range i1 l1].
  destruct (is_datetime
              (time (point_b l1) + timedelta_seconds (time_interval self + 1)))
    eqn:Hpost_end;
    [cbn [bind]; stats_simpl | out_of_range i1 l1].
  destruct (is_timedelta (timedelta_seconds (time_interval self))) eqn:Hd;
    [cbn [bind]; stats_simpl | out_of_range i1 l1].
  destruct (is_datetime
              (time (point_a l) - timedelta_seconds (time_interval self)))
    eqn:Hpre_start;
    [cbn [bind]; stats_simpl | out_of_range i1 l1].
  match goal with |- context [post_loop lines i1 ?e ?s] =>
    destruct (post_loop_spec lines i1 e s) as (k & Hk & Hpost & Hpall & Hpstop);
    rewrite Hpost
  end.
  cbn [bind]. stats_simpl.
  match goal with |- context [pre_skip_loop ?f lines 0%nat ?s] =>
    destruct (pre_skip_loop f lines 0%nat s) as [j|e|] eqn:Hskip
  end.
  - right. left. cbn [bind].
    match goal with |- context [pre_loop lines j ?e ?s] =>
      destruct (pre_loop_spec lines j e s) as (k' & Hk' & Hpre & Hqall & Hqstop);
      rewrite Hpre
    end.
    cbn [bind]. stats_simpl.
    apply pre_skip_loop_ok in Hskip. destruct Hskip as (_ & Hjstop & Hjskip).
    stats_simpl.
    match goal with |- exists _ _, Ok (_, ?s, ?e) = _ /\ _ => exists s, e end.
    split.
    + cbn [index_end]. replace (S (i1 - 1)) with i1 by lia. reflexivity.
    + split; [reflexivity|].
      constructor; stats_simpl; try reflexivity.
      * lia.
      * replace (S (i1 - 1)) with i1 by lia. reflexivity.
      * exact Hbelow.
      * replace (S (i1 - 1)) with i1 by lia. exact Hafter.
      * exists l. split; [exact Hl | reflexivity].
      * exists l1. split; [exact Hl1 | reflexivity].
      * exists k. replace (S (i1 - 1)) with i1 by lia.
        repeat split; auto; lia.
      * assert (Hj : (j < length lines)%nat).
        { destruct Hjstop as (lj & Hlj & _). apply nth_error_Some. congruence. }
        exists j, k'. repeat split; auto; try lia.
        intros i li Hi Hli. apply (Hjskip i li); [lia | exact Hli].
  - left. exists i1, l1. cbn [bind].
    assert (e = IndexError) by (eapply pre_skip_loop_raises; exact Hskip).
    subst e.
    repeat split; try assumption; try lia.
  - exfalso. revert Hskip. unfold budget. apply pre_skip_loop_fuel. lia.
Qed.

(** ** The scanning loop *)

Lemma parse_events_loop_ok (self : InterruptionProcessor)
    (lines : list TrackSegment) :
  forall (fuel index : nat) (acc res : list (EventStats * ExerciseEvent)),
    closed_before self lines index ->
    parse_events_loop fuel self lines index acc = Ok res ->
    exists new, res = acc ++ new /\ Forall (event_ok self lines) new.
Proof.
  induction fuel as [|fuel IH]; intros index acc res Hinv H; [discriminate|].
  cbn [parse_events_loop] in H.
  destruct (nth_error lines index) as [l|] eqn:Hl.
  - destruct (Z.ltb_spec (speed l) (min_speed self)) as [Hlt|Hge].
    + destruct (detect_event_cases self lines index l Hl Hlt)
        as [(i1 & l1 & _ & _ & _ & Hraise)
           | [(stats & ev & Hdet & Hstart & Hspec)
             | (i1 & l1 & _ & _ & _ & Hraise)]];
        [ | | rewrite Hraise in H; discriminate].
      * rewrite Hraise in H. discriminate.
      * rewrite Hdet in H. cbn [bind] in H.
        apply IH in H.
        -- destruct H as (new & -> & Hnew).
           exists ((stats, ev) :: new). split.
           ++ rewrite <- app_assoc. reflexivity.
           ++ constructor; [|exact Hnew].
              split; [exact Hspec|]. cbn [fst]. rewrite Hstart. exact Hinv.
        -- intros i li Hi Hli. injection Hi as <-.
           apply (es_after _ _ _ _ Hspec). exact Hli.
    + apply IH in H.
      * exact H.
      * intros i li Hi Hli. injection Hi as <-. congruence.
  - injection H as <-. exists []. split; [symmetry; apply app_nil_r | constructor].
Qed.

(** With the budget it is given the loop always finishes: it returns,
    the window arithmetic raises, which takes a track whose window does
    not fit, or the unguarded pre-window loop raises, which takes a
    negative window. *)
Lemma parse_events_loop_finishes (self : InterruptionProcessor)
    (lines : list TrackSegment) :
  forall (fuel index : nat) (acc : list (EventStats * ExerciseEvent)),
    (length lines <= fuel + index)%nat ->
    (exists res, parse_events_loop (S fuel) self lines index acc = Ok res) \/
    (window_fits self lines = false /\
     parse_events_loop (S fuel) self lines index acc = Raise OverflowError) \/
    (time_interval self < 0 /\
     parse_events_loop (S fuel) self lines index acc = Raise IndexError).
Proof.
  induction fuel as [|fuel IH]; intros index acc Hfuel.
  - left. exists acc. cbn [parse_events_loop].
    assert (Hnone : nth_error lines index = None) by (apply nth_error_None; lia).
    rewrite Hnone. reflexivity.
  - remember (S fuel) as fuel1 eqn:Hfuel1. cbn [parse_events_loop].
    destruct (nth_error lines index) as [l|] eqn:Hl;
      [|left; exists acc; reflexivity].
    assert (Hlen : (index < length lines)%nat) by (apply nth_error_Some; congruence).
    destruct (Z.ltb_spec (speed l) (min_speed self)) as [Hlt|Hge].
    + destruct (detect_event_cases self lines index l Hl Hlt)
        as [(i1 & l1 & _ & _ & Hskip & Hraise)
           | [(stats & ev & Hdet & Hstart & Hspec)
             | (i1 & l1 & _ & Hl1 & Hrange & Hraise)]].
      * right. right. rewrite Hraise. split; [|reflexivity].
        destruct (Z.lt_ge_cases (time_interval self) 0) as [Hneg|Hpos]; [exact Hneg|].
        exfalso.
        match type of Hskip with pre_skip_loop ?f _ _ ?st = _ =>
          destruct (pre_skip_loop_returns lines st f 0%nat index l) as (i & _ & Hi)
        end.
        -- lia.
        -- unfold budget. lia.
        -- exact Hl.
        -- cbn [timestamp_pre_start]. unfold timedelta_seconds. lia.
        -- congruence.
      * rewrite Hdet. cbn [bind]. subst fuel1. apply IH.
        pose proof (es_bounds _ _ _ _ Hspec). lia.
      * right. left. rewrite Hraise. split; [|reflexivity].
        destruct (window_fits self lines) eqn:Hfits; [|reflexivity].
        rewrite (window_fits_in_range self lines l l1 Hfits) in Hrange;
          [discriminate | |]; eapply nth_error_In; eassumption.
    + subst fuel1. apply IH. lia.
Qed.

(** ** Sorted start times *)

Lemma increasing_Sorted (ts : list Z) :
  increasing ts = true -> Sorted Z.lt ts.
Proof.
  induction ts as [|t rest IH]; intros H; [constructor|].
  destruct rest as [|u rest'].
  - repeat constructor.
  - cbn [increasing] in H. apply andb_true_iff in H. destruct H as [Htu Hrest].
    constructor; [apply IH; exact Hrest|].
    constructor. apply Z.ltb_lt. exact Htu.
Qed.

Lemma Sorted_nondecreasing (ts : list Z) :
  Sorted Z.le ts -> nondecreasing ts = true.
Proof.
  induction 1 as [|t rest Hsorted IH Hhd]; [reflexivity|].
  destruct rest as [|u rest']; [reflexivity|].
  cbn [nondecreasing]. apply andb_true_iff. split; [|exact IH].
  inversion Hhd; subst. apply Z.leb_le. assumption.
Qed.

Lemma StronglySorted_lt_le (ts : list Z) :
  StronglySorted Z.lt ts -> StronglySorted Z.le ts.
Proof.
  induction 1 as [|t rest Hsorted IH Hall]; constructor; [exact IH|].
  eapply Forall_impl; [|exact Hall]. intros u Hu. lia.
Qed.

Lemma StronglySorted_skipn {A : Type} (R : A -> A -> Prop) (n : nat) :
  forall xs, StronglySorted R xs -> StronglySorted R (skipn n xs).
Proof.
  induction n as [|n IH]; intros xs H; [exact H|].
  destruct xs as [|x xs]; [exact H|].
  cbn [skipn]. apply IH. inversion H; assumption.
Qed.

Lemma StronglySorted_firstn {A : Type} (R : A -> A -> Prop) (n : nat) :
  forall xs, StronglySorted R xs -> StronglySorted R (firstn n xs).
Proof.
  induction n as [|n IH]; intros xs H; [constructor|].
  destruct xs as [|x xs]; [constructor|].
  cbn [firstn]. inversion H as [|? ? Hxs Hall]; subst.
  constructor; [apply IH; exact Hxs|].
  apply Forall_forall. intros y Hy.
  rewrite Forall_forall in Hall. apply Hall.
  rewrite <- (firstn_skipn n xs). apply in_or_app. left. exact Hy.
Qed.

Lemma StronglySorted_slice {A : Type} (R : A -> A -> Prop) (xs : list A)
    (a b : nat) :
  StronglySorted R xs -> StronglySorted R (slice xs a b).
Proof.
  intros H. unfold slice. apply StronglySorted_firstn, StronglySorted_skipn, H.
Qed.

Lemma StronglySorted_app {A : Type} (R : A -> A -> Prop) (xs ys : list A) :
  StronglySorted R xs -> StronglySorted R ys ->
  (forall x y, In x xs -> In y ys -> R x y) ->
  StronglySorted R (xs ++ ys).
Proof.
  induction xs as [|x xs IH]; intros Hxs Hys Hcross; [exact Hys|].
  inversion Hxs as [|? ? Hxs' Hall]; subst. cbn [app]. constructor.
  - apply IH; [exact Hxs' | exact Hys |].
    intros a b Ha Hb. apply Hcross; [right; exact Ha | exact Hb].
  - apply Forall_app. split; [exact Hall|].
    apply Forall_forall. intros y Hy. apply Hcross; [left; reflexivity | exact Hy].
Qed.

Lemma start_times_slice (lines : list TrackSegment) (a b : nat) :
  start_times (slice lines a b) = slice (start_times lines) a b.
Proof.
  unfold start_times, slice. rewrite skipn_map, firstn_map. reflexivity.
Qed.

Lemma increasing_StronglySorted (lines : list TrackSegment) :
  increasing (start_times lines) = true ->
  StronglySorted Z.lt (start_times lines).
Proof.
  intros H. apply Sorted_StronglySorted.
  - intros x y z. apply Z.lt_trans.
  - apply increasing_Sorted. exact H.
Qed.

(** Under increasing start times the order of two segments is the order
    of their indices. *)
Lemma increasing_nth (ts : list Z) :
  StronglySorted Z.lt ts ->
  forall i j a b, (i < j)%nat ->
    nth_error ts i = Some a -> nth_error ts j = Some b -> a < b.
Proof.
  induction 1 as [|t rest Hsorted IH Hall]; intros i j a b Hij Hi Hj.
  - destruct i; discriminate.
  - destruct j as [|j]; [lia|]. cbn [nth_error] in Hj.
    destruct i as [|i].
    + injection Hi as <-. rewrite Forall_forall in Hall.
      apply Hall. eapply nth_error_In. exact Hj.
    + cbn [nth_error] in Hi. apply (IH i j); (lia || assumption).
Qed.

Lemma increasing_lines (lines : list TrackSegment) :
  increasing (start_times lines) = true ->
  forall i j a b, (i <= j)%nat ->
    nth_error lines i = Some a -> nth_error lines j = Some b ->
    time (point_a a) <= time (point_a b) /\
    (time (point_a a) = time (point_a b) -> i = j).
Proof.
  intros H i j a b Hij Ha Hb.
  destruct (Nat.eq_dec i j) as [->|Hne].
  - assert (a = b) by congruence. subst b. split; [lia | reflexivity].
  - assert (time (point_a a) < time (point_a b)).
    { apply (increasing_nth (start_times lines) (increasing_StronglySorted lines H) i j);
        [lia | |]; unfold start_times; rewrite nth_error_map.
      - rewrite Ha. reflexivity.
      - rewrite Hb. reflexivity. }
    split; lia.
Qed.

(** ** Results of [parse_events] *)

Lemma parse_events_stats_ok (self : InterruptionProcessor)
    (lines : list TrackSegment) (res : list (EventStats * ExerciseEvent)) :
  parse_events_stats self lines = Ok res -> Forall (event_ok self lines) res.
Proof.
  intros H. unfold parse_events_stats in H.
  apply parse_events_loop_ok in H.
  - destruct H as (new & -> & Hnew). exact Hnew.
  - intros i l Hi. discriminate.
Qed.

Lemma parse_events_stats_finishes (self : InterruptionProcessor)
    (lines : list TrackSegment) :
  (exists res, parse_events_stats self lines = Ok res) \/
  (window_fits self lines = false /\
   parse_events_stats self lines = Raise OverflowError) \/
  (time_interval self < 0 /\ parse_events_stats self lines = Raise IndexError).
Proof.
  unfold parse_events_stats, budget. apply parse_events_loop_finishes. lia.
Qed.

Lemma parse_events_segments (segment_speed : TrackPoint -> TrackPoint -> option Z -> Z)
    (self : InterruptionProcessor) (lines : list TrackSegment)
    (evs : list ExerciseEvent) :
  parse_events segment_speed self (Segments lines) = Ok evs ->
  exists res, parse_events_stats self lines = Ok res /\ evs = map snd res.
Proof.
  unfold parse_events. cbn [bind].
  destruct (parse_events_stats self lines) as [res|e|]; cbn [bind]; intros H;
    try discriminate.
  injection H as <-. exists res. split; reflexivity.
Qed.

Lemma parse_events_event_ok (segment_speed : TrackPoint -> TrackPoint -> option Z -> Z)
    (self : InterruptionProcessor) (lines : list TrackSegment)
    (evs : list ExerciseEvent) (ev : ExerciseEvent) :
  parse_events segment_speed self (Segments lines) = Ok evs -> In ev evs ->
  exists stats, event_ok self lines (stats, ev).
Proof.
  intros H Hin. apply parse_events_segments in H.
  destruct H as (res & Hres & ->).
  apply in_map_iff in Hin. destruct Hin as ([stats ev'] & Hsnd & Hin).
  cbn [snd] in Hsnd. subst ev'. exists stats.
  apply parse_events_stats_ok in Hres. rewrite Forall_forall in Hres.
  apply Hres. exact Hin.
Qed.

(** The pre-window of an event, once the window is not negative and no
    segment before the run starts later than the run: it starts at or
    before the run and reaches at least its first segment. *)
Lemma pre_window_reaches_run (self : InterruptionProcessor)
    (lines : list TrackSegment) (stats : EventStats) (ev : ExerciseEvent) :
  0 <= time_interval self ->
  event_spec self lines stats ev ->
  (forall i li, (i <= index_start stats)%nat -> nth_error lines i = Some li ->
                time (point_a li) <= timestamp_mid_start stats) ->
  exists j k l,
    (j <= index_start stats < k)%nat /\ (k <= length lines)%nat /\
    nth_error lines (index_start stats) = Some l /\
    timestamp_mid_start stats = time (point_a l) /\
    pre_event ev = slice lines j k /\
    Forall (fun l => time (point_a l) <= timestamp_mid_start stats) (pre_event ev).
Proof.
  intros Hw Hspec Hearlier.
  destruct (es_pre _ _ _ _ Hspec)
    as (j & k & Hjk & Hpre & Hskip & (lj & Hlj & Hjstop) & Hall & Hstop).
  destruct (es_mid_start _ _ _ _ Hspec) as (l & Hl & Hmid).
  pose proof (es_pre_start _ _ _ _ Hspec) as Hps.
  pose proof (es_bounds _ _ _ _ Hspec) as Hb.
  unfold timedelta_seconds in Hps.
  assert (Hj : (j <= index_start stats)%nat).
  { destruct (Nat.le_gt_cases j (index_start stats)) as [Hle|Hgt]; [exact Hle|].
    specialize (Hskip _ _ Hgt Hl). lia. }
  assert (Hk : (index_start stats < k)%nat).
  { destruct (Nat.le_gt_cases k (index_start stats)) as [Hle|Hgt]; [|exact Hgt].
    destruct (nth_error lines k) as [lk|] eqn:Hlk.
    - specialize (Hstop _ eq_refl). specialize (Hearlier _ _ Hle Hlk). lia.
    - apply nth_error_None in Hlk. lia. }
  exists j, k, l. repeat split; auto; lia.
Qed.

(** ** The event scanner *)

(** C1. Every event returned by [parse_events] has a non-empty [event]
    list, all of whose segments are strictly below the threshold, and the
    list is one maximal contiguous run [lines[s..e]] of such segments: the
    segment before it, if any, and the segment after it, if any, are at
    or above the threshold. *)
Theorem parse_events_event_is_maximal_run
    (segment_speed : TrackPoint -> TrackPoint -> option Z -> Z)
    (self : InterruptionProcessor) (lines : list TrackSegment)
    (evs : list ExerciseEvent) (ev : ExerciseEvent) :
  parse_events segment_speed self (Segments lines) = Ok evs ->
  In ev evs ->
  event ev <> [] /\
  Forall (fun l => speed l < min_speed self) (event ev) /\
  exists s e,
    (s <= e < length lines)%nat /\
    event ev = slice lines s (S e) /\
    (forall i l, s = S i -> nth_error lines i = Some l ->
                 min_speed self <= speed l) /\
    (forall l, nth_error lines (S e) = Some l -> min_speed self <= speed l).
Proof.
  intros H Hin.
  destruct (parse_events_event_ok _ _ _ _ _ H Hin) as (stats & Hspec & Hbefore).
  cbn [fst snd] in *.
  pose proof (es_bounds _ _ _ _ Hspec) as Hb.
  pose proof (es_event _ _ _ _ Hspec) as Hev.
  split.
  - intros Hnil. apply (f_equal (@length _)) in Hev.
    rewrite Hnil, slice_length in Hev by lia. cbn [length] in Hev. lia.
  - split; [exact (es_below _ _ _ _ Hspec)|].
    exists (index_start stats), (index_end stats).
    repeat split; try lia; auto.
    exact (es_after _ _ _ _ Hspec).
Qed.

Lemma parse_events_event_is_maximal_run_witness :
  parse_events (constant_speed 0) default_processor (Segments pause_track)
    = Ok (map snd (events_with_stats default_processor pause_track)) /\
  In (snd (first_event default_processor pause_track))
     (map snd (events_with_stats default_processor pause_track)) /\
  event (snd (first_event default_processor pause_track)) <> [] /\
  Forall (fun l => speed l < min_speed default_processor)
    (event (snd (first_event default_processor pause_track))) /\
  exists s e,
    (s <= e < length pause_track)%nat /\
    event (snd (first_event default_processor pause_track))
      = slice pause_track s (S e) /\
    (forall i l, s = S i -> nth_error pause_track i = Some l ->
                 min_speed default_processor <= speed l) /\
    (forall l, nth_error pause_track (S e) = Some l ->
               min_speed default_processor <= speed l).
Proof.
  assert (Hrun : parse_events (constant_speed 0) default_processor
                   (Segments pause_track)
                 = Ok (map snd (events_with_stats default_processor pause_track)))
    by reflexivity.
  assert (Hin : In (snd (first_event default_processor pause_track))
                  (map snd (events_with_stats default_processor pause_track)))
    by (left; reflexivity).
  split; [exact Hrun|]. split; [exact Hin|].
  exact (parse_events_event_is_maximal_run (constant_speed 0) default_processor
           pause_track _ _ Hrun Hin).
Defined.

(** C2, as stated, fails on a track that is one run from its first to its
    last segment: the event ends at the last index and its type is START. *)
Lemma event_type_stop_rule_fails :
  ~ type_rules_apply_independently default_processor still_track.
Proof.
  intros H.
  destruct (H (events_with_stats default_processor still_track)
              (fst (first_event default_processor still_track))
              (snd (first_event default_processor still_track))
              eq_refl (or_introl eq_refl)) as (_ & Hstop & _).
  specialize (Hstop eq_refl). discriminate Hstop.
Qed.

(** C2, amended. The type of an event is decided by position with START
    taking precedence: START when the run begins at index 0, otherwise
    STOP when it ends at the last index, otherwise PAUSE.  The indices
    are those of the run the event holds. *)
Theorem event_type_by_position (self : InterruptionProcessor)
    (lines : list TrackSegment) (res : list (EventStats * ExerciseEvent))
    (stats : EventStats) (ev : ExerciseEvent) :
  parse_events_stats self lines = Ok res ->
  In (stats, ev) res ->
  event ev = slice lines (index_start stats) (S (index_end stats)) /\
  event_type ev =
    (if (index_start stats =? 0)%nat then EXERCISE_START
     else if (index_end stats =? length lines - 1)%nat then EXERCISE_STOP
     else EXERCISE_PAUSE).
Proof.
  intros H Hin. apply parse_events_stats_ok in H.
  rewrite Forall_forall in H. destruct (H _ Hin) as (Hspec & _).
  cbn [fst snd] in Hspec.
  split; [exact (es_event _ _ _ _ Hspec)|].
  rewrite (es_type _ _ _ _ Hspec). unfold determine_event_type.
  pose proof (es_bounds _ _ _ _ Hspec) as Hb.
  destruct (index_start stats =? 0)%nat; [reflexivity|].
  destruct (Z.leb_spec (Z.of_nat (length lines) - 1) (Z.of_nat (index_end stats)));
    destruct (Nat.eqb_spec (index_end stats) (length lines - 1));
    (reflexivity || lia).
Qed.

Lemma event_type_by_position_witness :
  parse_events_stats default_processor pause_track
    = Ok (events_with_stats default_processor pause_track) /\
  In (first_event default_processor pause_track)
     (events_with_stats default_processor pause_track) /\
  event (snd (first_event default_processor pause_track))
    = slice pause_track 2 5 /\
  event_type (snd (first_event default_processor pause_track)) = EXERCISE_PAUSE.
Proof.
  split; [reflexivity|]. split; [left; reflexivity|].
  exact (event_type_by_position default_processor pause_track _
           (fst (first_event default_processor pause_track))
           (snd (first_event default_processor pause_track))
           eq_refl (or_introl eq_refl)).
Defined.

(** ** The context windower *)

(** C3, as stated, fails with the default window on a track whose first
    segment is at rest: [pre_event] holds that segment. *)
Lemma pre_event_not_empty_at_start :
  ~ pre_window_empty_at_start default_processor still_track.
Proof.
  intros (res & Hres & Hempty).
  assert (res = events_with_stats default_processor still_track)
    by (vm_compute in Hres; injection Hres as <-; reflexivity).
  subst res.
  specialize (Hempty (fst (first_event default_processor still_track))
                (snd (first_event default_processor still_track))
                (or_introl eq_refl) eq_refl).
  discriminate Hempty.
Qed.

(** The unguarded loop does index out of bounds when the window is
    negative and no segment starts late enough. *)
Example negative_window_raises :
  parse_events_stats (mkInterruptionProcessor (-5) 2 EmptyString) still_track
    = Raise IndexError.
Proof. reflexivity. Qed.

(** The window arithmetic leaves the range of [datetime] when the window
    is some three thousand years long. *)
Example long_window_overflows :
  parse_events_stats (mkInterruptionProcessor 100000000000 2 EmptyString)
    still_track = Raise OverflowError.
Proof. reflexivity. Qed.

(** C3, amended. With a window that is not negative the pre-window scan
    never indexes out of bounds: [parse_events] returns, or it raises
    [OverflowError] before the scan, which takes a track whose window
    does not fit the range of [datetime].  When it returns, [pre_event]
    of an event whose run begins at the first sample is not empty: it
    begins with the first segment of the sequence. *)
Theorem pre_window_scan_is_safe (self : InterruptionProcessor)
    (lines : list TrackSegment) :
  0 <= time_interval self ->
  ((exists res, parse_events_stats self lines = Ok res) \/
   (window_fits self lines = false /\
    parse_events_stats self lines = Raise OverflowError)) /\
  forall res stats ev,
    parse_events_stats self lines = Ok res ->
    In (stats, ev) res -> index_start stats = 0%nat ->
    exists l rest, nth_error lines 0 = Some l /\ pre_event ev = l :: rest.
Proof.
  intros Hw. split.
  - destruct (parse_events_stats_finishes self lines)
      as [Hok | [Hover | (Hneg & _)]]; [left; exact Hok | right; exact Hover | lia].
  - intros res stats ev Hres Hin Hzero.
    apply parse_events_stats_ok in Hres. rewrite Forall_forall in Hres.
    destruct (Hres _ Hin) as (Hspec & _). cbn [fst snd] in Hspec.
    destruct (es_mid_start _ _ _ _ Hspec) as (l0 & Hl0 & Hmid0).
    destruct (pre_window_reaches_run self lines stats ev Hw Hspec)
      as (j & k & l & Hjk & Hk & Hl & Hmid & Hpre & _).
    + intros i li Hi Hli. assert (i = index_start stats) by lia. subst i.
      assert (li = l0) by congruence. subst li. lia.
    + rewrite Hzero in *. assert (j = 0%nat) by lia. subst j.
      exists l, (slice lines 1 k). split; [exact Hl|].
      rewrite Hpre. apply slice_cons; [lia | exact Hl].
Qed.

Lemma pre_window_scan_is_safe_witness :
  0 <= time_interval default_processor /\
  window_fits default_processor still_track = true /\
  parse_events_stats default_processor still_track
    = Ok (events_with_stats default_processor still_track) /\
  ((exists res, parse_events_stats default_processor still_track = Ok res) \/
   (window_fits default_processor still_track = false /\
    parse_events_stats default_processor still_track = Raise OverflowError)) /\
  forall res stats ev,
    parse_events_stats default_processor still_track = Ok res ->
    In (stats, ev) res -> index_start stats = 0%nat ->
    exists l rest, nth_error still_track 0 = Some l /\ pre_event ev = l :: rest.
Proof.
  assert (Hw : 0 <= time_interval default_processor) by (cbn; lia).
  split; [exact Hw|]. split; [reflexivity|]. split; [reflexivity|].
  exact (pre_window_scan_is_safe default_processor still_track Hw).
Defined.

(** C10. With a window that is not negative and strictly increasing
    start times, [pre_event] of every event is not empty and ends with
    the segment at [index_start], which is also the first segment of
    [event]. *)
Theorem pre_event_ends_with_run_start (self : InterruptionProcessor)
    (lines : list TrackSegment) (res : list (EventStats * ExerciseEvent))
    (stats : EventStats) (ev : ExerciseEvent) :
  0 <= time_interval self ->
  increasing (start_times lines) = true ->
  parse_events_stats self lines = Ok res ->
  In (stats, ev) res ->
  exists front l,
    nth_error lines (index_start stats) = Some l /\
    pre_event ev = front ++ [l] /\
    hd_error (event ev) = Some l.
Proof.
  intros Hw Hinc Hres Hin.
  apply parse_events_stats_ok in Hres. rewrite Forall_forall in Hres.
  destruct (Hres _ Hin) as (Hspec & _). cbn [fst snd] in Hspec.
  destruct (es_mid_start _ _ _ _ Hspec) as (l0 & Hl0 & Hmid0).
  pose proof (es_bounds _ _ _ _ Hspec) as Hb.
  destruct (pre_window_reaches_run self lines stats ev Hw Hspec)
    as (j & k & l & Hjk & Hk & Hl & Hmid & Hpre & Hall).
  - intros i li Hi Hli. rewrite Hmid0.
    apply (increasing_lines lines Hinc i (index_start stats)); assumption.
  - assert (Hks : k = S (index_start stats)).
    { destruct (Nat.le_gt_cases k (S (index_start stats))) as [Hle|Hgt]; [lia|].
      exfalso.
      destruct (nth_error lines (S (index_start stats))) as [l'|] eqn:Hl';
        [|apply nth_error_None in Hl'; lia].
      assert (Hin' : In l' (pre_event ev)).
      { rewrite Hpre. apply (nth_error_In _ (S (index_start stats) - j)).
        rewrite nth_error_slice by lia.
        replace (j + (S (index_start stats) - j))%nat
          with (S (index_start stats)) by lia.
        exact Hl'. }
      rewrite Forall_forall in Hall. specialize (Hall _ Hin').
      destruct (increasing_lines lines Hinc (index_start stats)
                  (S (index_start stats)) l l') as (Hle' & Heq);
        [lia | assumption | assumption |].
      assert (time (point_a l) = time (point_a l')) by lia.
      specialize (Heq H). lia. }
    subst k. exists (slice lines j (index_start stats)), l.
    split; [exact Hl|]. split.
    + rewrite Hpre.
      rewrite (slice_app lines j (index_start stats) (S (index_start stats)))
        by lia.
      rewrite (slice_cons lines (index_start stats) (S (index_start stats)) l)
        by (lia || assumption).
      rewrite (slice_nil lines (S (index_start stats))) by lia. reflexivity.
    + rewrite (es_event _ _ _ _ Hspec).
      rewrite (slice_cons lines (index_start stats) (S (index_end stats)) l)
        by (lia || assumption).
      reflexivity.
Qed.

Lemma pre_event_ends_with_run_start_witness :
  0 <= time_interval default_processor /\
  increasing (start_times pause_track) = true /\
  parse_events_stats default_processor pause_track
    = Ok (events_with_stats default_processor pause_track) /\
  In (first_event default_processor pause_track)
     (events_with_stats default_processor pause_track) /\
  exists front l,
    nth_error pause_track
      (index_start (fst (first_event default_processor pause_track))) = Some l /\
    pre_event (snd (first_event default_processor pause_track)) = front ++ [l] /\
    hd_error (event (snd (first_event default_processor pause_track))) = Some l.
Proof.
  assert (Hw : 0 <= time_interval default_processor) by (cbn; lia).
  split; [exact Hw|]. split; [reflexivity|]. split; [reflexivity|].
  split; [left; reflexivity|].
  exact (pre_event_ends_with_run_start default_processor pause_track _
           (fst (first_event default_processor pause_track))
           (snd (first_event default_processor pause_track))
           Hw eq_refl eq_refl (or_introl eq_refl)).
Defined.

(** C4. On a segment sequence with strictly increasing start times, the
    start times along [pre_event ++ event ++ post_event] never decrease,
    for every event that [parse_events] returns. *)
Theorem event_context_is_chronological
    (segment_speed : TrackPoint -> TrackPoint -> option Z -> Z)
    (self : InterruptionProcessor) (lines : list TrackSegment)
    (evs : list ExerciseEvent) (ev : ExerciseEvent) :
  increasing (start_times lines) = true ->
  parse_events segment_speed self (Segments lines) = Ok evs ->
  In ev evs ->
  nondecreasing (start_times (pre_event ev ++ event ev ++ post_event ev)) = true.
Proof.
  intros Hinc H Hin.
  destruct (parse_events_event_ok _ _ _ _ _ H Hin) as (stats & Hspec & _).
  cbn [fst snd] in Hspec.
  pose proof (es_bounds _ _ _ _ Hspec) as Hb.
  destruct (es_mid_start _ _ _ _ Hspec) as (l0 & Hl0 & Hmid0).
  destruct (es_post _ _ _ _ Hspec) as (k2 & Hk2 & Hpost & _).
  destruct (es_pre _ _ _ _ Hspec) as (j & k & Hjk & Hpre & _ & _ & Hall & _).
  assert (Hsorted : StronglySorted Z.le (start_times lines))
    by (apply StronglySorted_lt_le, increasing_StronglySorted, Hinc).
  assert (Hrest : event ev ++ post_event ev = slice lines (index_start stats) k2).
  { rewrite (es_event _ _ _ _ Hspec), Hpost. symmetry. apply slice_app; lia. }
  rewrite Hrest.
  apply Sorted_nondecreasing, StronglySorted_Sorted.
  unfold start_times. rewrite map_app. apply StronglySorted_app.
  - fold (start_times (pre_event ev)). rewrite Hpre, start_times_slice.
    apply StronglySorted_slice. exact Hsorted.
  - fold (start_times (slice lines (index_start stats) k2)).
    rewrite start_times_slice. apply StronglySorted_slice. exact Hsorted.
  - intros x y Hx Hy.
    apply in_map_iff in Hx. destruct Hx as (lx & <- & Hlx).
    apply in_map_iff in Hy. destruct Hy as (ly & <- & Hly).
    rewrite Forall_forall in Hall. specialize (Hall _ Hlx).
    apply slice_In in Hly. destruct Hly as (i & Hi & Hly).
    destruct (increasing_lines lines Hinc (index_start stats) i l0 ly)
      as (Hle & _); [lia | assumption | assumption |].
    lia.
Qed.

Lemma event_context_is_chronological_witness :
  increasing (start_times pause_track) = true /\
  parse_events (constant_speed 0) default_processor (Segments pause_track)
    = Ok (map snd (events_with_stats default_processor pause_track)) /\
  In (snd (first_event default_processor pause_track))
     (map snd (events_with_stats default_processor pause_track)) /\
  nondecreasing
    (start_times
       (pre_event (snd (first_event default_processor pause_track)) ++
        event (snd (first_event default_processor pause_track)) ++
        post_event (snd (first_event default_processor pause_track)))) = true.
Proof.
  split; [reflexivity|]. split; [reflexivity|]. split; [left; reflexivity|].
  exact (event_context_is_chronological (constant_speed 0) default_processor
           pause_track _ _ eq_refl eq_refl (or_introl eq_refl)).
Defined.

(** ** The track segment builder *)

Lemma for_range_S {St : Type} (n : nat) (body : St -> nat -> outcome St) (s : St) :
  for_range (S n) body s = (s' <- for_range n body s ;; body s' n).
Proof.
  unfold for_range. rewrite seq_S, fold_left_app. reflexivity.
Qed.

Lemma item_nth {A : Type} (xs : list A) (i : nat) (d : A) :
  (i < length xs)%nat -> item xs i = Ok (nth i xs d).
Proof.
  intros H. unfold item. rewrite (nth_error_nth' xs d H). reflexivity.
Qed.

Lemma item_last_snoc {A : Type} (xs : list A) (x : A) :
  item_last (xs ++ [x]) = Ok x.
Proof.
  destruct xs as [|y ys]; [reflexivity|].
  cbn [item_last app]. rewrite last_last. reflexivity.
Qed.

Lemma copy_if_parallel_spec (tcx_data : TrackData) (xs : list Z)
    (set : TrackPoint -> Z -> TrackPoint) (i : nat) (pa pb : TrackPoint) :
  (S i < length (positions tcx_data))%nat ->
  copy_if_parallel tcx_data xs set (S i) (pa, pb)
    = Ok (with_item set (parallel_item tcx_data xs i) pa,
          with_item set (parallel_item tcx_data xs (S i)) pb).
Proof.
  intros Hi. unfold copy_if_parallel, parallel_item.
  destruct (Nat.eqb_spec (length xs) (length (positions tcx_data))) as [Hlen|Hlen].
  - replace (S i - 1)%nat with i by lia.
    rewrite (item_nth xs i 0), (item_nth xs (S i) 0) by lia.
    rewrite (nth_error_nth' xs 0), (nth_error_nth' xs 0) by lia.
    reflexivity.
  - reflexivity.
Qed.

Lemma data_to_lines_body_spec
    (segment_speed : TrackPoint -> TrackPoint -> option Z -> Z)
    (tcx_data : TrackData) (lines : list TrackSegment) (i : nat) :
  length (timestamps tcx_data) = length (positions tcx_data) ->
  (S i < length (positions tcx_data))%nat ->
  length lines = i ->
  exists seg,
    data_to_lines_body segment_speed tcx_data lines (S i) = Ok (lines ++ [seg]) /\
    segment_built segment_speed tcx_data lines i seg.
Proof.
  intros Hts Hi Hlen. unfold data_to_lines_body.
  cbn [Nat.eqb negb]. replace (S i - 1)%nat with i by lia.
  rewrite (item_nth (positions tcx_data) i (0, 0)) by lia.
  rewrite (item_nth (timestamps tcx_data) i 0) by lia.
  rewrite (item_nth (positions tcx_data) (S i) (0, 0)) by lia.
  rewrite (item_nth (timestamps tcx_data) (S i) 0) by lia.
  cbn [bind].
  repeat (rewrite copy_if_parallel_spec by lia; cbn [bind fst snd]).
  fold (sample_point tcx_data i). fold (sample_point tcx_data (S i)).
  destruct i as [|i'].
  - cbn [Nat.ltb Nat.leb bind]. eexists. split; [reflexivity|].
    unfold segment_built, new_TrackSegment. cbn. repeat split.
  - replace (1 <? S (S i'))%nat with true by reflexivity.
    destruct (exists_last (l := lines)) as (front & lst & ->).
    { intros ->. discriminate. }
    rewrite item_last_snoc. cbn [bind]. eexists. split; [reflexivity|].
    rewrite length_app in Hlen. cbn [length] in Hlen.
    unfold segment_built, new_TrackSegment. cbn [point_a point_b prev_speed speed].
    rewrite nth_error_app2 by lia.
    replace (i' - length front)%nat with 0%nat by lia.
    repeat split.
Qed.

Lemma data_to_lines_loop_spec
    (segment_speed : TrackPoint -> TrackPoint -> option Z -> Z)
    (tcx_data : TrackData) :
  length (timestamps tcx_data) = length (positions tcx_data) ->
  forall n, (n <= length (positions tcx_data))%nat ->
    exists lines,
      for_range n (data_to_lines_body segment_speed tcx_data) [] = Ok lines /\
      length lines = (n - 1)%nat /\
      forall i seg, nth_error lines i = Some seg ->
                    segment_built segment_speed tcx_data lines i seg.
Proof.
  intros Hts. induction n as [|n IH]; intros Hn.
  - exists []. split; [reflexivity|]. split; [reflexivity|].
    intros i seg H. destruct i; discriminate.
  - destruct IH as (lines & Hrun & Hlen & Hbuilt); [lia|].
    rewrite for_range_S, Hrun. cbn [bind].
    destruct n as [|n].
    + exists lines. split; [reflexivity|]. split; [lia | exact Hbuilt].
    + destruct (data_to_lines_body_spec segment_speed tcx_data lines n Hts)
        as (seg & Hbody & Hseg); [lia | lia |].
      exists (lines ++ [seg]). split; [exact Hbody|]. split.
      * rewrite length_app. cbn [length]. lia.
      * intros i s Hs.
        assert (Hext : forall j, (j < length lines)%nat ->
                  nth_error (lines ++ [seg]) j = nth_error lines j)
          by (intros j Hj; apply nth_error_app1; exact Hj).
        destruct (Nat.lt_ge_cases i (length lines)) as [Hlt|Hge].
        -- rewrite Hext in Hs by exact Hlt.
           destruct (Hbuilt i s Hs) as (Ha & Hb & Hp & Hv).
           repeat split; try assumption.
           destruct i as [|i']; [exact Hp|]. rewrite Hext by lia. exact Hp.
        -- assert (Hi : i = length lines).
           { assert (i < length (lines ++ [seg]))%nat
               by (apply nth_error_Some; congruence).
             rewrite length_app in H. cbn [length] in H. lia. }
           subst i. rewrite nth_error_app2, Nat.sub_diag in Hs by lia.
           injection Hs as <-.
           destruct Hseg as (Ha & Hb & Hp & Hv).
           replace (length lines) with n by lia.
           repeat split; try assumption.
           destruct n as [|n']; [exact Hp|]. rewrite Hext by lia. exact Hp.
Qed.

Lemma data_to_lines_spec
    (segment_speed : TrackPoint -> TrackPoint -> option Z -> Z)
    (tcx_data : TrackData) :
  length (timestamps tcx_data) = length (positions tcx_data) ->
  exists lines,
    data_to_lines segment_speed tcx_data = Ok lines /\
    length lines = (length (positions tcx_data) - 1)%nat /\
    forall i seg, nth_error lines i = Some seg ->
                  segment_built segment_speed tcx_data lines i seg.
Proof.
  intros Hts. unfold data_to_lines.
  apply data_to_lines_loop_spec; [exact Hts | lia].
Qed.

Lemma with_item_keeps_position (set : TrackPoint -> Z -> TrackPoint)
    (o : option Z) (p : TrackPoint) :
  (forall q v, latitude (set q v) = latitude q /\
               longitude (set q v) = longitude q /\
               time (set q v) = time q) ->
  latitude (with_item set o p) = latitude p /\
  longitude (with_item set o p) = longitude p /\
  time (with_item set o p) = time p.
Proof.
  intros Hset. destruct o as [v|]; [apply Hset | repeat split].
Qed.

Lemma sample_point_position (tcx_data : TrackData) (i : nat) :
  (latitude (sample_point tcx_data i), longitude (sample_point tcx_data i))
    = nth i (positions tcx_data) (0, 0) /\
  time (sample_point tcx_data i) = nth i (timestamps tcx_data) 0.
Proof.
  unfold sample_point.
  repeat match goal with
  | |- context [with_item ?set ?o ?p] =>
    let H := fresh "H" in
    destruct (with_item_keeps_position set o p) as (-> & -> & ->);
    [intros q v; repeat split|]
  end.
  cbn. destruct (nth i (positions tcx_data) (0, 0)). split; reflexivity.
Qed.

Lemma sample_point_optional (tcx_data : TrackData) (i : nat) :
  elevation (sample_point tcx_data i)
    = parallel_item tcx_data (altitudes tcx_data) i /\
  heartrate (sample_point tcx_data i)
    = parallel_item tcx_data (heartrates tcx_data) i /\
  distance (sample_point tcx_data i)
    = match parallel_item tcx_data (speeds tcx_data) i with
      | Some v => Some v
      | None => parallel_item tcx_data (distances tcx_data) i
      end.
Proof.
  unfold sample_point.
  destruct (parallel_item tcx_data (altitudes tcx_data) i);
    destruct (parallel_item tcx_data (heartrates tcx_data) i);
    destruct (parallel_item tcx_data (distances tcx_data) i);
    destruct (parallel_item tcx_data (speeds tcx_data) i);
    repeat split.
Qed.

(** C9. For a track record whose timestamps are parallel to its [N]
    positions the builder returns [N - 1] segments ([0] when [N = 0]);
    segment [i] has sample [i] as [point_a] and sample [i + 1] as
    [point_b].  With no positions the builder and [parse_events] return
    empty lists, and so does [parse_events] on an empty list of
    segments; nothing is raised. *)
Theorem data_to_lines_connects_samples
    (segment_speed : TrackPoint -> TrackPoint -> option Z -> Z)
    (self : InterruptionProcessor) (tcx_data : TrackData) :
  length (timestamps tcx_data) = length (positions tcx_data) ->
  (exists lines,
     data_to_lines segment_speed tcx_data = Ok lines /\
     length lines = (length (positions tcx_data) - 1)%nat /\
     forall i seg, nth_error lines i = Some seg ->
       (latitude (point_a seg), longitude (point_a seg))
         = nth i (positions tcx_data) (0, 0) /\
       time (point_a seg) = nth i (timestamps tcx_data) 0 /\
       (latitude (point_b seg), longitude (point_b seg))
         = nth (S i) (positions tcx_data) (0, 0) /\
       time (point_b seg) = nth (S i) (timestamps tcx_data) 0) /\
  (forall ts alt hr ds sp,
     data_to_lines segment_speed (mkTrackData [] ts alt hr ds sp) = Ok [] /\
     parse_events segment_speed self (Track (mkTrackData [] ts alt hr ds sp))
       = Ok []) /\
  parse_events segment_speed self (Segments []) = Ok [].
Proof.
  intros Hts. split; [|split; [intros; split; reflexivity | reflexivity]].
  destruct (data_to_lines_spec segment_speed tcx_data Hts)
    as (lines & Hrun & Hlen & Hbuilt).
  exists lines. split; [exact Hrun|]. split; [exact Hlen|].
  intros i seg Hseg. destruct (Hbuilt i seg Hseg) as (Ha & Hb & _ & _).
  rewrite Ha, Hb.
  destruct (sample_point_position tcx_data i) as (Hpa & Hta).
  destruct (sample_point_position tcx_data (S i)) as (Hpb & Htb).
  repeat split; assumption.
Qed.

Lemma data_to_lines_connects_samples_witness :
  length (timestamps three_samples) = length (positions three_samples) /\
  (exists lines,
     data_to_lines (constant_speed 7) three_samples = Ok lines /\
     length lines = 2%nat /\
     forall i seg, nth_error lines i = Some seg ->
       (latitude (point_a seg), longitude (point_a seg))
         = nth i (positions three_samples) (0, 0) /\
       time (point_a seg) = nth i (timestamps three_samples) 0 /\
       (latitude (point_b seg), longitude (point_b seg))
         = nth (S i) (positions three_samples) (0, 0) /\
       time (point_b seg) = nth (S i) (timestamps three_samples) 0).
Proof.
  split; [reflexivity|].
  exact (proj1 (data_to_lines_connects_samples (constant_speed 7)
                  default_processor three_samples eq_refl)).
Defined.

(** C7. When [speeds] is parallel to [positions] the [distance] field of
    both endpoints of every segment holds the sample of [speeds], whatever
    [distances] is: the fourth copy of [__data_to_lines] assigns
    [point.distance] a second time. *)
Theorem distance_field_holds_speed_sample
    (segment_speed : TrackPoint -> TrackPoint -> option Z -> Z)
    (tcx_data : TrackData) (lines : list TrackSegment) (i : nat)
    (seg : TrackSegment) :
  length (timestamps tcx_data) = length (positions tcx_data) ->
  length (speeds tcx_data) = length (positions tcx_data) ->
  data_to_lines segment_speed tcx_data = Ok lines ->
  nth_error lines i = Some seg ->
  distance (point_a seg) = nth_error (speeds tcx_data) i /\
  distance (point_b seg) = nth_error (speeds tcx_data) (S i) /\
  distance (point_a seg) <> None /\ distance (point_b seg) <> None.
Proof.
  intros Hts Hsp Hrun Hseg.
  destruct (data_to_lines_spec segment_speed tcx_data Hts)
    as (lines' & Hrun' & Hlen & Hbuilt).
  assert (lines' = lines) by congruence. subst lines'.
  destruct (Hbuilt i seg Hseg) as (Ha & Hb & _ & _).
  assert (Hi : (i < length lines)%nat) by (apply nth_error_Some; congruence).
  destruct (sample_point_optional tcx_data i) as (_ & _ & Hda).
  destruct (sample_point_optional tcx_data (S i)) as (_ & _ & Hdb).
  unfold parallel_item in Hda, Hdb.
  rewrite Hsp, Nat.eqb_refl in Hda, Hdb.
  assert (Hsa : nth_error (speeds tcx_data) i <> None)
    by (apply nth_error_Some; lia).
  assert (Hsb : nth_error (speeds tcx_data) (S i) <> None)
    by (apply nth_error_Some; lia).
  rewrite Ha, Hb, Hda, Hdb.
  destruct (nth_error (speeds tcx_data) i); [|congruence].
  destruct (nth_error (speeds tcx_data) (S i)); [|congruence].
  repeat split; congruence.
Qed.

Lemma distance_field_holds_speed_sample_witness :
  length (timestamps aliased_track) = length (positions aliased_track) /\
  length (speeds aliased_track) = length (positions aliased_track) /\
  length (distances aliased_track) = length (positions aliased_track) /\
  nth_error (distances aliased_track) 0 = Some 0 /\
  nth_error (distances aliased_track) 1 = Some 100 /\
  exists seg,
    data_to_lines (constant_speed 7) aliased_track = Ok [seg] /\
    distance (point_a seg) = Some 5 /\
    distance (point_b seg) = Some 6.
Proof.
  repeat (split; [reflexivity|]).
  eexists. split; [reflexivity|].
  pose proof (distance_field_holds_speed_sample (constant_speed 7) aliased_track
                _ 0%nat _ eq_refl eq_refl eq_refl eq_refl) as (Ha & Hb & _).
  split; [exact Ha | exact Hb].
Defined.

(** Elevation and heart rate are copied exactly when their array is
    parallel to [positions]. *)
Lemma elevation_heartrate_copied
    (segment_speed : TrackPoint -> TrackPoint -> option Z -> Z)
    (tcx_data : TrackData) (lines : list TrackSegment) (i : nat)
    (seg : TrackSegment) :
  length (timestamps tcx_data) = length (positions tcx_data) ->
  data_to_lines segment_speed tcx_data = Ok lines ->
  nth_error lines i = Some seg ->
  elevation (point_a seg) = parallel_item tcx_data (altitudes tcx_data) i /\
  elevation (point_b seg) = parallel_item tcx_data (altitudes tcx_data) (S i) /\
  heartrate (point_a seg) = parallel_item tcx_data (heartrates tcx_data) i /\
  heartrate (point_b seg) = parallel_item tcx_data (heartrates tcx_data) (S i).
Proof.
  intros Hts Hrun Hseg.
  destruct (data_to_lines_spec segment_speed tcx_data Hts)
    as (lines' & Hrun' & Hlen & Hbuilt).
  assert (lines' = lines) by congruence. subst lines'.
  destruct (Hbuilt i seg Hseg) as (-> & -> & _ & _).
  destruct (sample_point_optional tcx_data i) as (-> & -> & _).
  destruct (sample_point_optional tcx_data (S i)) as (-> & -> & _).
  repeat split.
Qed.

(** C8, as stated, fails on three samples: the second segment is given
    the speed of the first. *)
Lemma second_segment_has_prev_speed :
  ~ prev_speed_null_twice (constant_speed 7) three_samples.
Proof.
  intros (lines & Hrun & _ & Hsecond & _).
  vm_compute in Hrun. injection Hrun as <-.
  specialize (Hsecond _ eq_refl). discriminate Hsecond.
Qed.

(** C8, amended. [prev_speed] is null for the first segment only; every
    later segment, the second included, is given the speed of the
    segment before it. *)
Theorem prev_speed_is_previous_speed
    (segment_speed : TrackPoint -> TrackPoint -> option Z -> Z)
    (tcx_data : TrackData) :
  length (timestamps tcx_data) = length (positions tcx_data) ->
  exists lines,
    data_to_lines segment_speed tcx_data = Ok lines /\
    (forall seg, nth_error lines 0 = Some seg -> prev_speed seg = None) /\
    (forall i seg, nth_error lines (S i) = Some seg ->
       exists p, nth_error lines i = Some p /\ prev_speed seg = Some (speed p)).
Proof.
  intros Hts.
  destruct (data_to_lines_spec segment_speed tcx_data Hts)
    as (lines & Hrun & Hlen & Hbuilt).
  exists lines. split; [exact Hrun|]. split.
  - intros seg Hseg. destruct (Hbuilt 0%nat seg Hseg) as (_ & _ & Hp & _).
    exact Hp.
  - intros i seg Hseg. destruct (Hbuilt (S i) seg Hseg) as (_ & _ & Hp & _).
    assert (Hi : (S i < length lines)%nat) by (apply nth_error_Some; congruence).
    destruct (nth_error lines i) as [p|] eqn:Hpi.
    + exists p. split; [reflexivity | exact Hp].
    + apply nth_error_None in Hpi. lia.
Qed.

Lemma prev_speed_is_previous_speed_witness :
  length (timestamps three_samples) = length (positions three_samples) /\
  exists lines,
    data_to_lines (constant_speed 7) three_samples = Ok lines /\
    (forall seg, nth_error lines 0 = Some seg -> prev_speed seg = None) /\
    (forall i seg, nth_error lines (S i) = Some seg ->
       exists p, nth_error lines i = Some p /\ prev_speed seg = Some (speed p)).
Proof.
  split; [reflexivity|].
  exact (prev_speed_is_previous_speed (constant_speed 7) three_samples eq_refl).
Defined.

(** ** The event classifier *)

(** C6, as stated, fails: with the service down [classify_event] returns
    no event. *)
Lemma service_failure_not_absorbed :
  ~ service_failure_is_absorbed unit no_box failing_service grid_distance
      default_processor pause_at_crossing.
Proof.
  intros H. destruct (H _ eq_refl) as (ev' & Hrun & _). discriminate Hrun.
Qed.

(** An exception of the feature service leaves [classify_event] as it
    came: there is no handler between the call and the caller. *)
Lemma classify_event_raises (Box : Type)
    (CoordinatesBox : ExerciseEvent -> Box)
    (identify_intersections : string -> ExerciseEvent -> Box -> outcome (list Node))
    (distance_meters : Z * Z -> Z * Z -> Z)
    (self : InterruptionProcessor) (ev : ExerciseEvent) (e : exn) :
  identify_intersections (overpass_api_url self) ev (CoordinatesBox ev) = Raise e ->
  classify_event Box CoordinatesBox identify_intersections distance_meters self ev
    = Raise e.
Proof.
  intros H. unfold classify_event. rewrite H. reflexivity.
Qed.

(** C6, amended. [classify_event] does not catch a failure of the feature
    service: the exception the service raises is raised by
    [classify_event] itself, and no event is returned. *)
Theorem service_failure_propagates (Box : Type)
    (CoordinatesBox : ExerciseEvent -> Box)
    (identify_intersections : string -> ExerciseEvent -> Box -> outcome (list Node))
    (distance_meters : Z * Z -> Z * Z -> Z)
    (self : InterruptionProcessor) (ev : ExerciseEvent) (e : exn) :
  identify_intersections (overpass_api_url self) ev (CoordinatesBox ev) = Raise e ->
  classify_event Box CoordinatesBox identify_intersections distance_meters self ev
    = Raise e.
Proof.
  apply classify_event_raises.
Qed.

Lemma service_failure_propagates_witness :
  failing_service (overpass_api_url default_processor) pause_at_crossing
    (no_box pause_at_crossing) = Raise (ServiceError "timeout") /\
  classify_event unit no_box failing_service grid_distance default_processor
    pause_at_crossing = Raise (ServiceError "timeout").
Proof.
  split; [reflexivity|].
  exact (service_failure_propagates unit no_box failing_service grid_distance
           default_processor pause_at_crossing _ eq_refl).
Defined.

(** The failure also ends [events(lines, classify=True)]. *)
Lemma classify_all_propagates (Box : Type)
    (CoordinatesBox : ExerciseEvent -> Box)
    (identify_intersections : string -> ExerciseEvent -> Box -> outcome (list Node))
    (distance_meters : Z * Z -> Z * Z -> Z)
    (self : InterruptionProcessor) (ev : ExerciseEvent)
    (rest : list ExerciseEvent) (e : exn) :
  identify_intersections (overpass_api_url self) ev (CoordinatesBox ev) = Raise e ->
  classify_all Box CoordinatesBox identify_intersections distance_meters self
    (ev :: rest) = Raise e.
Proof.
  intros H. unfold classify_all. cbn [fold_left bind].
  rewrite (classify_event_raises _ _ _ _ _ _ _ H). cbn [bind].
  induction rest as [|r rest IH]; [reflexivity | exact IH].
Qed.

Lemma for_range_fold {St A : Type} (P : St -> Prop) (xs : list A)
    (f : St -> A -> St) (body : St -> nat -> outcome St) :
  (forall s i x, P s -> nth_error xs i = Some x ->
                 body s i = Ok (f s x) /\ P (f s x)) ->
  forall n s, (n <= length xs)%nat -> P s ->
    for_range n body s = Ok (fold_left f (firstn n xs) s) /\
    P (fold_left f (firstn n xs) s).
Proof.
  intros Hbody. induction n as [|n IH]; intros s Hn Hs.
  - split; [reflexivity | exact Hs].
  - destruct (IH s) as (Hrun & HP); [lia | exact Hs |].
    destruct (nth_error xs n) as [x|] eqn:Hx;
      [|apply nth_error_None in Hx; lia].
    destruct (Hbody _ n x HP Hx) as (Hstep & HP').
    assert (Hfirst : firstn (S n) xs = firstn n xs ++ [x]).
    { replace (S n) with (n + 1)%nat by lia. rewrite firstn_plus.
      rewrite (skipn_nth_error_cons xs n x Hx). reflexivity. }
    rewrite for_range_S, Hrun, Hfirst, fold_left_app. cbn [bind fold_left].
    split; [exact Hstep | exact HP'].
Qed.

Lemma fold_scan_pairs (distance_meters : Z * Z -> Z * Z -> Z)
    (nodes : list Node) :
  forall (segs : list TrackSegment) (s : Z * ExerciseEvent),
    fold_left (fun s seg =>
                 fold_left (classify_step distance_meters) (map (pair seg) nodes) s)
      segs s
    = fold_left (classify_step distance_meters) (scan_pairs segs nodes) s.
Proof.
  induction segs as [|seg segs IH]; intros s; [reflexivity|].
  unfold scan_pairs. cbn [flat_map fold_left]. rewrite fold_left_app. apply IH.
Qed.

Lemma classify_event_scan (Box : Type)
    (CoordinatesBox : ExerciseEvent -> Box)
    (identify_intersections : string -> ExerciseEvent -> Box -> outcome (list Node))
    (distance_meters : Z * Z -> Z * Z -> Z)
    (self : InterruptionProcessor) (ev : ExerciseEvent) (nodes : list Node) :
  identify_intersections (overpass_api_url self) ev (CoordinatesBox ev) = Ok nodes ->
  classify_event Box CoordinatesBox identify_intersections distance_meters self ev
    = Ok (snd (fold_left (classify_step distance_meters)
                 (scan_pairs (event ev) nodes) (1000000, ev))).
Proof.
  intros Hnodes. unfold classify_event. rewrite Hnodes. cbn [bind].
  set (P := fun s : Z * ExerciseEvent => event (snd s) = event ev).
  set (inner := fun (s : Z * ExerciseEvent) (seg : TrackSegment) =>
                  fold_left (classify_step distance_meters) (map (pair seg) nodes) s).
  assert (Hstep : forall s pr, P s -> P (classify_step distance_meters s pr)).
  { intros s pr Hs. unfold classify_step.
    destruct (_ && _); [exact Hs | exact Hs]. }
  assert (Hinner : forall seg ps s, P s ->
            P (fold_left (classify_step distance_meters) (map (pair seg) ps) s)).
  { intros seg ps. induction ps as [|p ps IH]; intros s Hs; [exact Hs|].
    cbn [map fold_left]. apply IH, Hstep, Hs. }
  destruct (for_range_fold P (event ev) inner
              (fun s e => for_range (length nodes)
                            (fun s i => classify_body distance_meters e s i nodes) s))
    with (n := length (event ev)) (s := (1000000, ev)) as (Hrun & _).
  - intros s e seg Hs Hseg.
    destruct (for_range_fold P nodes
                (fun s node => classify_step distance_meters s (seg, node))
                (fun s i => classify_body distance_meters e s i nodes))
      with (n := length nodes) (s := s) as (Hrun & HP).
    + intros [m ev'] i node Hs' Hnode. unfold P in Hs'. cbn [snd] in Hs'.
      split; [|apply Hstep; exact Hs'].
      unfold classify_body, item. rewrite Hs', Hseg, Hnode. cbn [bind].
      unfold classify_step, detail_of. cbn [fst snd].
      destruct (_ && _); reflexivity.
    + lia.
    + exact Hs.
    + rewrite firstn_all in Hrun, HP. unfold inner.
      assert (Hmap : forall ps s0,
                fold_left (classify_step distance_meters) (map (pair seg) ps) s0
                = fold_left (fun s node => classify_step distance_meters s (seg, node))
                    ps s0).
      { induction ps as [|p ps IH]; intros s0; [reflexivity | apply IH]. }
      rewrite Hmap. split; [exact Hrun | exact HP].
  - lia.
  - reflexivity.
  - rewrite Hrun. cbn [bind]. rewrite firstn_all. f_equal. f_equal.
    unfold inner. apply fold_scan_pairs.
Qed.

Lemma classify_scan_state (distance_meters : Z * Z -> Z * Z -> Z)
    (ev : ExerciseEvent) (pairs : list (TrackSegment * Node)) :
  scan_state distance_meters ev pairs
    (fold_left (classify_step distance_meters) pairs (1000000, ev)).
Proof.
  induction pairs as [|q pairs IH] using rev_ind.
  - left. repeat split. constructor.
  - rewrite fold_left_app. cbn [fold_left].
    set (s := fold_left (classify_step distance_meters) pairs (1000000, ev)) in *.
    unfold classify_step. fold (pair_distance distance_meters q).
    destruct IH as [(Hm & Hev & Hfar) | (before & pr & after & Hdone & Hm & Hnear & Hb & Ha & Hev)].
    + rewrite Hm.
      destruct (Z.ltb_spec (pair_distance distance_meters q) 22) as [Hq|Hq].
      * replace (pair_distance distance_meters q <? 1000000) with true
          by (symmetry; apply Z.ltb_lt; lia).
        cbn [andb]. right. exists pairs, q, []. cbn [fst snd].
        repeat split; try assumption; try constructor.
        -- eapply Forall_impl; [|exact Hfar]. intros a Ha. cbn beta in Ha. lia.
        -- rewrite Hev. reflexivity.
      * cbn [andb]. left. repeat split; try assumption.
        apply Forall_app. split; [exact Hfar|]. constructor; [exact Hq | constructor].
    + rewrite Hm. right.
      destruct (Z.ltb_spec (pair_distance distance_meters q) 22) as [Hq|Hq];
        destruct (Z.ltb_spec (pair_distance distance_meters q)
                    (pair_distance distance_meters pr)) as [Hlt|Hge];
        cbn [andb].
      * exists pairs, q, []. cbn [fst snd].
        repeat split; try assumption; try constructor.
        -- rewrite Hdone. apply Forall_app. split.
           ++ eapply Forall_impl; [|exact Hb]. intros a H. cbn beta in H. lia.
           ++ constructor; [lia|].
              eapply Forall_impl; [|exact Ha]. intros a H. cbn beta in H. lia.
        -- rewrite Hev. reflexivity.
      * exists before, pr, (after ++ [q]).
        repeat split; try assumption.
        -- rewrite Hdone, <- app_assoc. reflexivity.
        -- apply Forall_app. split; [exact Ha|]. constructor; [lia | constructor].
      * lia.
      * exists before, pr, (after ++ [q]).
        repeat split; try assumption.
        -- rewrite Hdone, <- app_assoc. reflexivity.
        -- apply Forall_app. split; [exact Ha|]. constructor; [lia | constructor].
Qed.

(** Whenever the feature service answers, [classify_event] returns the
    event: untouched when no pair of a core segment and a node is within
    22 metres, and otherwise with the detail made of the node of the
    first pair, in scan order, at the least distance. *)
Lemma classify_event_spec (Box : Type)
    (CoordinatesBox : ExerciseEvent -> Box)
    (identify_intersections : string -> ExerciseEvent -> Box -> outcome (list Node))
    (distance_meters : Z * Z -> Z * Z -> Z)
    (self : InterruptionProcessor) (ev : ExerciseEvent) (nodes : list Node) :
  identify_intersections (overpass_api_url self) ev (CoordinatesBox ev) = Ok nodes ->
  exists s,
    classify_event Box CoordinatesBox identify_intersections distance_meters
      self ev = Ok (snd s) /\
    scan_state distance_meters ev (scan_pairs (event ev) nodes) s.
Proof.
  intros Hnodes.
  exists (fold_left (classify_step distance_meters)
            (scan_pairs (event ev) nodes) (1000000, ev)).
  split.
  - apply (classify_event_scan _ _ _ _ _ _ _ Hnodes).
  - apply classify_scan_state.
Qed.

(** C5. For an event of one segment and a service that answers with one
    node less than 22 metres from the segment's [point_a],
    [classify_event] attaches a detail of type INTERSECTION whose
    [longitude] is the latitude of the node and whose [latitude] is its
    longitude. *)
Theorem classify_event_swaps_coordinates (Box : Type)
    (CoordinatesBox : ExerciseEvent -> Box)
    (identify_intersections : string -> ExerciseEvent -> Box -> outcome (list Node))
    (distance_meters : Z * Z -> Z * Z -> Z)
    (self : InterruptionProcessor) (ev : ExerciseEvent)
    (seg : TrackSegment) (node : Node) :
  event ev = [seg] ->
  identify_intersections (overpass_api_url self) ev (CoordinatesBox ev)
    = Ok [node] ->
  distance_meters (latitude (point_a seg), longitude (point_a seg))
    (lat node, lon node) < 22 ->
  exists ev',
    classify_event Box CoordinatesBox identify_intersections distance_meters
      self ev = Ok ev' /\
    event_detail ev' =
      Some {| location := {| loc_longitude := lat node;
                             loc_latitude := lon node |};
              type := INTERSECTION |}.
Proof.
  intros Hev Hnodes Hnear. unfold classify_event.
  rewrite Hnodes, Hev. cbn [bind length for_range seq fold_left].
  unfold classify_body. rewrite Hev. cbn [item nth_error bind].
  apply Z.ltb_lt in Hnear. rewrite Hnear. cbn [andb].
  match goal with |- context [?d <? 1000000] =>
    replace (d <? 1000000) with true
      by (symmetry; apply Z.ltb_lt; apply Z.ltb_lt in Hnear; lia)
  end.
  eexists. split; reflexivity.
Qed.

Lemma classify_event_swaps_coordinates_witness :
  event pause_at_crossing = event pause_at_crossing /\
  grid_distance (46000000, 14000000) (lat crossing, lon crossing) < 22 /\
  lat crossing <> lon crossing /\
  exists ev',
    classify_event unit no_box one_crossing_service grid_distance
      default_processor pause_at_crossing = Ok ev' /\
    event_detail ev' =
      Some {| location := {| loc_longitude := 46000100;
                             loc_latitude := 14000000 |};
              type := INTERSECTION |}.
Proof.
  split; [reflexivity|].
  assert (Hnear : grid_distance (46000000, 14000000) (lat crossing, lon crossing) < 22)
    by (vm_compute; reflexivity).
  split; [exact Hnear|]. split; [discriminate|].
  exact (classify_event_swaps_coordinates unit no_box one_crossing_service
           grid_distance default_processor pause_at_crossing _ crossing
           eq_refl eq_refl Hnear).
Defined.

(** ** The scan as a whole *)

Lemma skipn_slice {A : Type} (xs : list A) (a b : nat) :
  (a <= b)%nat -> skipn a xs = slice xs a b ++ skipn b xs.
Proof.
  intros Hab. unfold slice.
  rewrite <- (firstn_skipn (b - a) (skipn a xs)) at 1.
  rewrite skipn_skipn. replace (b - a + a)%nat with b by lia. reflexivity.
Qed.

Lemma filter_all {A : Type} (f : A -> bool) (xs : list A) :
  Forall (fun x => f x = true) xs -> filter f xs = xs.
Proof.
  induction 1 as [|x xs Hx Hxs IH]; [reflexivity|].
  cbn [filter]. rewrite Hx, IH. reflexivity.
Qed.

Lemma well_separated_weaken (res : list (EventStats * ExerciseEvent)) :
  forall lo lo', (lo' <= lo)%nat -> well_separated lo res -> well_separated lo' res.
Proof.
  destruct res as [|p rest]; intros lo lo' Hle H; [exact I|].
  cbn [well_separated] in *. destruct H as (H1 & H2 & H3).
  repeat split; try assumption. lia.
Qed.

(** The events appended from [index] on hold the segments below the
    threshold from [index] on, in order, and are well separated. *)
Lemma parse_events_loop_cover (self : InterruptionProcessor)
    (lines : list TrackSegment) :
  forall (fuel index : nat) (acc res : list (EventStats * ExerciseEvent)),
    parse_events_loop fuel self lines index acc = Ok res ->
    exists new,
      res = acc ++ new /\
      core_segments new = filter (below_threshold self) (skipn index lines) /\
      well_separated index new.
Proof.
  induction fuel as [|fuel IH]; intros index acc res H; [discriminate|].
  cbn [parse_events_loop] in H.
  destruct (nth_error lines index) as [l|] eqn:Hl.
  - destruct (Z.ltb_spec (speed l) (min_speed self)) as [Hlt|Hge].
    + destruct (detect_event_cases self lines index l Hl Hlt)
        as [(i1 & l1 & _ & _ & _ & Hraise)
           | [(stats & ev & Hdet & Hstart & Hspec)
             | (i1 & l1 & _ & _ & _ & Hraise)]];
        [ | | rewrite Hraise in H; discriminate].
      * rewrite Hraise in H. discriminate.
      * rewrite Hdet in H. cbn [bind] in H. apply IH in H.
        destruct H as (new & -> & Hcore & Hsep).
        pose proof (es_bounds _ _ _ _ Hspec) as Hb.
        exists ((stats, ev) :: new). split; [rewrite <- app_assoc; reflexivity|].
        split.
        -- unfold core_segments in *. cbn [map concat snd]. rewrite Hcore.
           rewrite (es_event _ _ _ _ Hspec), Hstart.
           rewrite (skipn_slice lines index (S (index_end stats))) by lia.
           rewrite filter_app,
             (filter_all _ (slice lines index (S (index_end stats)))).
           ++ f_equal.
              destruct (nth_error lines (S (index_end stats))) as [l'|] eqn:Hl'.
              ** rewrite (skipn_nth_error_cons lines _ l' Hl'). cbn [filter].
                 pose proof (es_after _ _ _ _ Hspec l' Hl') as Hfast.
                 replace (below_threshold self l') with false
                   by (symmetry; apply Z.ltb_ge; exact Hfast).
                 reflexivity.
              ** apply nth_error_None in Hl'.
                 rewrite !skipn_all2 by lia. reflexivity.
           ++ rewrite <- Hstart, <- (es_event _ _ _ _ Hspec).
              eapply Forall_impl; [|exact (es_below _ _ _ _ Hspec)].
              intros a Ha. apply Z.ltb_lt. exact Ha.
        -- cbn [well_separated fst]. repeat split; try lia.
           replace (index_end stats + 2)%nat with (S (S (index_end stats))) by lia.
           exact Hsep.
    + apply IH in H. destruct H as (new & -> & Hcore & Hsep).
      exists new. split; [reflexivity|]. split.
      * rewrite (skipn_nth_error_cons lines index l Hl). cbn [filter].
        replace (below_threshold self l) with false
          by (symmetry; apply Z.ltb_ge; exact Hge).
        exact Hcore.
      * apply (well_separated_weaken new (S index)); [lia | exact Hsep].
  - injection H as <-. exists []. split; [symmetry; apply app_nil_r|].
    apply nth_error_None in Hl. rewrite skipn_all2 by lia.
    split; [reflexivity | exact I].
Qed.

Lemma parse_events_stats_cover (self : InterruptionProcessor)
    (lines : list TrackSegment) (res : list (EventStats * ExerciseEvent)) :
  parse_events_stats self lines = Ok res ->
  core_segments res = filter (below_threshold self) lines /\
  well_separated 0 res.
Proof.
  intros H. unfold parse_events_stats in H.
  apply parse_events_loop_cover in H. destruct H as (new & -> & Hcore & Hsep).
  cbn [app]. split; assumption.
Qed.

Lemma well_separated_nth (res : list (EventStats * ExerciseEvent)) :
  forall lo, well_separated lo res ->
  forall i j p q, (i < j)%nat ->
    nth_error res i = Some p -> nth_error res j = Some q ->
    (lo <= index_start (fst p))%nat /\
    (index_end (fst p) + 2 <= index_start (fst q))%nat.
Proof.
  induction res as [|r rest IH]; intros lo Hsep i j p q Hij Hp Hq.
  - destruct i; discriminate.
  - cbn [well_separated] in Hsep. destruct Hsep as (Hlo & Hse & Hrest).
    destruct j as [|j]; [lia|]. cbn [nth_error] in Hq.
    destruct i as [|i].
    + injection Hp as <-. split; [exact Hlo|].
      destruct j as [|j].
      * destruct rest as [|q' rest']; [discriminate|].
        injection Hq as <-. cbn [well_separated] in Hrest. lia.
      * destruct rest as [|q' rest']; [discriminate|].
        cbn [well_separated] in Hrest. destruct Hrest as (H1 & H2 & H3).
        destruct (IH _ (conj H1 (conj H2 H3)) 0%nat (S j) q' q) as (_ & Hq');
          [lia | reflexivity | exact Hq |]. lia.
    + cbn [nth_error] in Hp.
      destruct (IH _ Hrest i j p q) as (Hlo' & Hgap); [lia | assumption | assumption |].
      split; lia.
Qed.

Lemma core_segments_events (res : list (EventStats * ExerciseEvent)) :
  core_segments res = concat (map event (map snd res)).
Proof.
  unfold core_segments. rewrite map_map. reflexivity.
Qed.

Lemma nth_error_map_snd {A B : Type} (res : list (A * B)) (i : nat) (b : B) :
  nth_error (map snd res) i = Some b ->
  exists a, nth_error res i = Some (a, b).
Proof.
  rewrite nth_error_map. destruct (nth_error res i) as [[a b']|]; [|discriminate].
  cbn. intros H. injection H as <-. exists a. reflexivity.
Qed.

(** X1. [parse_events] on a list of segments always finishes.  It
    returns a list of events; or it raises [OverflowError], which takes a
    track whose window does not fit the range of [datetime]; or it raises
    [IndexError] in the unguarded pre-window loop, which takes a negative
    window. *)
Theorem parse_events_always_finishes
    (segment_speed : TrackPoint -> TrackPoint -> option Z -> Z)
    (self : InterruptionProcessor) (lines : list TrackSegment) :
  (exists evs, parse_events segment_speed self (Segments lines) = Ok evs) \/
  (window_fits self lines = false /\
   parse_events segment_speed self (Segments lines) = Raise OverflowError) \/
  (time_interval self < 0 /\
   parse_events segment_speed self (Segments lines) = Raise IndexError).
Proof.
  unfold parse_events. cbn [bind].
  destruct (parse_events_stats_finishes self lines)
    as [(res & ->) | [(Hfits & ->) | (Hneg & ->)]].
  - left. eexists. reflexivity.
  - right. left. split; [exact Hfits | reflexivity].
  - right. right. split; [exact Hneg | reflexivity].
Qed.

(** X2. The core runs of the returned events, one after the other, are
    exactly the segments below the threshold, in the order of the
    track: no slow segment is missed, none is reported twice. *)
Theorem parse_events_collects_slow_segments
    (segment_speed : TrackPoint -> TrackPoint -> option Z -> Z)
    (self : InterruptionProcessor) (lines : list TrackSegment)
    (evs : list ExerciseEvent) :
  parse_events segment_speed self (Segments lines) = Ok evs ->
  concat (map event evs) = filter (below_threshold self) lines.
Proof.
  intros H. apply parse_events_segments in H. destruct H as (res & Hres & ->).
  rewrite <- core_segments_events.
  apply (parse_events_stats_cover self lines res Hres).
Qed.

Lemma parse_events_collects_slow_segments_witness :
  parse_events (constant_speed 0) default_processor (Segments stop_and_go_track)
    = Ok (map snd (events_with_stats default_processor stop_and_go_track)) /\
  concat (map event (map snd (events_with_stats default_processor stop_and_go_track)))
    = [segment_at 0 1; segment_at 2 1].
Proof.
  split; [reflexivity|].
  exact (parse_events_collects_slow_segments (constant_speed 0) default_processor
           stop_and_go_track _ eq_refl).
Defined.

(** X3. The runs of two returned events never touch: an event that comes
    later in the list starts at least two indices after the end of an
    earlier one, so the events are in track order and the segment that
    closed a run belongs to no run. *)
Theorem events_are_separated (self : InterruptionProcessor)
    (lines : list TrackSegment) (res : list (EventStats * ExerciseEvent))
    (i j : nat) (p q : EventStats * ExerciseEvent) :
  parse_events_stats self lines = Ok res ->
  (i < j)%nat ->
  nth_error res i = Some p ->
  nth_error res j = Some q ->
  (index_end (fst p) + 2 <= index_start (fst q))%nat.
Proof.
  intros Hres Hij Hp Hq.
  destruct (parse_events_stats_cover self lines res Hres) as (_ & Hsep).
  apply (well_separated_nth res 0 Hsep i j p q Hij Hp Hq).
Qed.

Lemma events_are_separated_witness :
  parse_events_stats default_processor stop_and_go_track
    = Ok (events_with_stats default_processor stop_and_go_track) /\
  (0 < 1)%nat /\
  (exists p q,
     nth_error (events_with_stats default_processor stop_and_go_track) 0 = Some p /\
     nth_error (events_with_stats default_processor stop_and_go_track) 1 = Some q /\
     (index_end (fst p) + 2 <= index_start (fst q))%nat).
Proof.
  split; [reflexivity|]. split; [lia|].
  eexists. eexists. split; [reflexivity|]. split; [reflexivity|].
  exact (events_are_separated default_processor stop_and_go_track _ 0%nat 1%nat
           _ _ eq_refl (Nat.lt_0_succ 0) eq_refl eq_refl).
Defined.

(** X4. [parse_events] returns no event exactly when no segment is below
    the threshold. *)
Theorem no_event_iff_no_slow_segment
    (segment_speed : TrackPoint -> TrackPoint -> option Z -> Z)
    (self : InterruptionProcessor) (lines : list TrackSegment)
    (evs : list ExerciseEvent) :
  parse_events segment_speed self (Segments lines) = Ok evs ->
  (evs = [] <-> Forall (fun l => min_speed self <= speed l) lines).
Proof.
  intros H.
  assert (Hcover : concat (map event evs) = filter (below_threshold self) lines).
  { pose proof H as H'. apply parse_events_segments in H'.
    destruct H' as (res & Hres & ->). rewrite <- core_segments_events.
    apply (parse_events_stats_cover self lines res Hres). }
  split.
  - intros ->. cbn [map concat] in Hcover.
    apply Forall_forall. intros l Hl.
    destruct (Z.ltb_spec (speed l) (min_speed self)) as [Hlt|Hge]; [|exact Hge].
    exfalso. assert (Hin : In l (filter (below_threshold self) lines)).
    { apply filter_In. split; [exact Hl|]. apply Z.ltb_lt. exact Hlt. }
    rewrite <- Hcover in Hin. exact Hin.
  - intros Hfast. destruct evs as [|ev evs']; [reflexivity|]. exfalso.
    destruct (parse_events_event_ok _ _ _ _ ev H (or_introl eq_refl))
      as (stats & Hspec & _). cbn [fst snd] in Hspec.
    pose proof (es_bounds _ _ _ _ Hspec) as Hb.
    destruct (es_mid_start _ _ _ _ Hspec) as (l & Hl & _).
    assert (Hin : In l (event ev)).
    { rewrite (es_event _ _ _ _ Hspec).
      rewrite (slice_cons lines _ _ l) by (lia || assumption). left. reflexivity. }
    pose proof (es_below _ _ _ _ Hspec) as Hbelow.
    rewrite Forall_forall in Hbelow, Hfast.
    specialize (Hbelow l Hin). specialize (Hfast l (nth_error_In _ _ Hl)). lia.
Qed.

Lemma no_event_iff_no_slow_segment_witness :
  parse_events (constant_speed 0) default_processor (Segments [segment_at 0 10])
    = Ok [] /\
  (@nil ExerciseEvent = [] <->
   Forall (fun l => min_speed default_processor <= speed l) [segment_at 0 10]).
Proof.
  split; [reflexivity|].
  exact (no_event_iff_no_slow_segment (constant_speed 0) default_processor
           [segment_at 0 10] [] eq_refl).
Defined.

(** X5. No event returned by [parse_events] keeps the type UNDEFINED it
    was created with, and none carries a detail: [event_detail] is only
    ever set by [classify_event]. *)
Theorem parsed_event_is_typed_and_unclassified
    (segment_speed : TrackPoint -> TrackPoint -> option Z -> Z)
    (self : InterruptionProcessor) (lines : list TrackSegment)
    (evs : list ExerciseEvent) (ev : ExerciseEvent) :
  parse_events segment_speed self (Segments lines) = Ok evs ->
  In ev evs ->
  event_type ev <> UNDEFINED /\ event_detail ev = None.
Proof.
  intros H Hin.
  destruct (parse_events_event_ok _ _ _ _ ev H Hin) as (stats & Hspec & _).
  cbn [fst snd] in Hspec. split; [|exact (es_detail _ _ _ _ Hspec)].
  rewrite (es_type _ _ _ _ Hspec). unfold determine_event_type.
  destruct (index_start stats =? 0)%nat; [discriminate|].
  destruct (_ <=? _); discriminate.
Qed.

Lemma parsed_event_is_typed_and_unclassified_witness :
  parse_events (constant_speed 0) default_processor (Segments pause_track)
    = Ok (map snd (events_with_stats default_processor pause_track)) /\
  In (snd (first_event default_processor pause_track))
     (map snd (events_with_stats default_processor pause_track)) /\
  event_type (snd (first_event default_processor pause_track)) <> UNDEFINED /\
  event_detail (snd (first_event default_processor pause_track)) = None.
Proof.
  split; [reflexivity|]. split; [left; reflexivity|].
  exact (parsed_event_is_typed_and_unclassified (constant_speed 0)
           default_processor pause_track _ _ eq_refl (or_introl eq_refl)).
Defined.

(** X6. Only the first returned event can have type START and only the
    last one can have type STOP. *)
Theorem start_is_first_and_stop_is_last
    (segment_speed : TrackPoint -> TrackPoint -> option Z -> Z)
    (self : InterruptionProcessor) (lines : list TrackSegment)
    (evs : list ExerciseEvent) (i : nat) (ev : ExerciseEvent) :
  parse_events segment_speed self (Segments lines) = Ok evs ->
  nth_error evs i = Some ev ->
  (event_type ev = EXERCISE_START -> i = 0%nat) /\
  (event_type ev = EXERCISE_STOP -> S i = length evs).
Proof.
  intros H Hev. apply parse_events_segments in H. destruct H as (res & Hres & ->).
  destruct (nth_error_map_snd res i ev Hev) as (stats & Hi).
  destruct (parse_events_stats_cover self lines res Hres) as (_ & Hsep).
  pose proof (parse_events_stats_ok self lines res Hres) as Hok.
  rewrite Forall_forall in Hok.
  destruct (Hok _ (nth_error_In _ _ Hi)) as (Hspec & _). cbn [fst snd] in Hspec.
  pose proof (es_type _ _ _ _ Hspec) as Htype. unfold determine_event_type in Htype.
  split; intros Hty; rewrite Hty in Htype.
  - destruct (Nat.eqb_spec (index_start stats) 0) as [Hz|Hnz].
    + destruct i as [|i]; [reflexivity|]. exfalso.
      destruct (nth_error res 0) as [p|] eqn:Hp.
      * pose proof (well_separated_nth res 0 Hsep 0%nat (S i) p (stats, ev)
                      (Nat.lt_0_succ i) Hp Hi) as (_ & Hgap).
        cbn [fst] in Hgap. lia.
      * apply nth_error_None in Hp.
        assert (S i < length res)%nat by (apply nth_error_Some; congruence). lia.
    + destruct (_ <=? _); discriminate.
  - destruct (Nat.eqb_spec (index_start stats) 0) as [Hz|Hnz]; [discriminate|].
    destruct (Z.leb_spec (Z.of_nat (length lines) - 1) (Z.of_nat (index_end stats)))
      as [Hlast|Hnot]; [|discriminate].
    rewrite length_map.
    assert (Hlen : (i < length res)%nat) by (apply nth_error_Some; congruence).
    destruct (Nat.eq_dec (S i) (length res)) as [Heq|Hne]; [exact Heq|]. exfalso.
    destruct (nth_error res (S i)) as [q|] eqn:Hq;
      [|apply nth_error_None in Hq; lia].
    pose proof (well_separated_nth res 0 Hsep i (S i) (stats, ev) q
                  (Nat.lt_succ_diag_r i) Hi Hq) as (_ & Hgap).
    cbn [fst] in Hgap.
    destruct q as [qs qe].
    destruct (Hok _ (nth_error_In _ _ Hq)) as (Hqspec & _). cbn [fst snd] in *.
    pose proof (es_bounds _ _ _ _ Hqspec). lia.
Qed.

Lemma start_is_first_and_stop_is_last_witness :
  parse_events (constant_speed 0) default_processor (Segments stop_and_go_track)
    = Ok (map snd (events_with_stats default_processor stop_and_go_track)) /\
  (exists ev,
     nth_error (map snd (events_with_stats default_processor stop_and_go_track)) 1
       = Some ev /\
     event_type ev = EXERCISE_STOP /\
     (event_type ev = EXERCISE_START -> 1%nat = 0%nat) /\
     (event_type ev = EXERCISE_STOP ->
      2%nat = length (map snd (events_with_stats default_processor stop_and_go_track)))).
Proof.
  split; [reflexivity|].
  eexists. split; [reflexivity|]. split; [reflexivity|].
  exact (start_is_first_and_stop_is_last (constant_speed 0) default_processor
           stop_and_go_track _ 1%nat _ eq_refl eq_refl).
Defined.

(** ** The windows as time intervals *)

Lemma nondecreasing_Sorted (ts : list Z) :
  nondecreasing ts = true -> Sorted Z.le ts.
Proof.
  induction ts as [|t rest IH]; intros H; [constructor|].
  destruct rest as [|u rest'].
  - repeat constructor.
  - cbn [nondecreasing] in H. apply andb_true_iff in H. destruct H as [Htu Hrest].
    constructor; [apply IH; exact Hrest|].
    constructor. apply Z.leb_le. exact Htu.
Qed.

Lemma sorted_le_nth (ts : list Z) :
  StronglySorted Z.le ts ->
  forall i j a b, (i <= j)%nat ->
    nth_error ts i = Some a -> nth_error ts j = Some b -> a <= b.
Proof.
  induction 1 as [|t rest Hsorted IH Hall]; intros i j a b Hij Hi Hj.
  - destruct i; discriminate.
  - destruct i as [|i].
    + injection Hi as <-. destruct j as [|j].
      * injection Hj as <-. lia.
      * rewrite Forall_forall in Hall. apply Hall.
        eapply nth_error_In. exact Hj.
    + destruct j as [|j]; [lia|].
      apply (IH i j); (lia || assumption).
Qed.

(** With start times that never decrease, a later segment does not start
    before an earlier one. *)
Lemma nondecreasing_lines (lines : list TrackSegment) :
  nondecreasing (start_times lines) = true ->
  forall i j a b, (i <= j)%nat ->
    nth_error lines i = Some a -> nth_error lines j = Some b ->
    time (point_a a) <= time (point_a b).
Proof.
  intros H i j a b Hij Ha Hb.
  assert (Hs : StronglySorted Z.le (start_times lines)).
  { apply Sorted_StronglySorted; [intros x y z; apply Z.le_trans|].
    apply nondecreasing_Sorted. exact H. }
  apply (sorted_le_nth (start_times lines) Hs i j); [exact Hij | |];
    unfold start_times; rewrite nth_error_map.
  - rewrite Ha. reflexivity.
  - rewrite Hb. reflexivity.
Qed.

Lemma slice_Forall_nth {A : Type} (P : A -> Prop) (xs : list A) (a b i : nat)
    (x : A) :
  Forall P (slice xs a b) -> (a <= i < b)%nat -> nth_error xs i = Some x -> P x.
Proof.
  intros Hall Hi Hx. rewrite Forall_forall in Hall. apply Hall.
  apply (nth_error_In _ (i - a)). rewrite nth_error_slice by lia.
  replace (a + (i - a))%nat with i by lia. exact Hx.
Qed.

(** X7. On a track whose start times never decrease, [post_event] holds
    exactly the segments after the run that start before the end of the
    run plus the window plus one second. *)
Theorem post_event_is_the_time_window (self : InterruptionProcessor)
    (lines : list TrackSegment) (res : list (EventStats * ExerciseEvent))
    (stats : EventStats) (ev : ExerciseEvent) :
  nondecreasing (start_times lines) = true ->
  parse_events_stats self lines = Ok res ->
  In (stats, ev) res ->
  exists last_of_run k,
    nth_error lines (index_end stats) = Some last_of_run /\
    post_event ev = slice lines (S (index_end stats)) k /\
    forall i l, nth_error lines i = Some l -> (S (index_end stats) <= i)%nat ->
      ((i < k)%nat <->
       time (point_a l) < time (point_b last_of_run)
                          + timedelta_seconds (time_interval self + 1)).
Proof.
  intros Hmono Hres Hin.
  apply parse_events_stats_ok in Hres. rewrite Forall_forall in Hres.
  destruct (Hres _ Hin) as (Hspec & _). cbn [fst snd] in Hspec.
  destruct (es_mid_end _ _ _ _ Hspec) as (le & Hle & Hend).
  destruct (es_post _ _ _ _ Hspec) as (k & Hk & Hpost & Hall & Hstop).
  pose proof (es_post_end _ _ _ _ Hspec) as Hpe. rewrite Hend in Hpe.
  exists le, k. split; [exact Hle|]. split; [exact Hpost|].
  intros i l Hl Hi. rewrite <- Hpe. split.
  - intros Hik. rewrite Hpost in Hall.
    apply (slice_Forall_nth _ lines (S (index_end stats)) k i l Hall);
      [lia | exact Hl].
  - intros Hlt. destruct (Nat.lt_ge_cases i k) as [Hik|Hki]; [exact Hik|].
    exfalso.
    assert (Hilen : (i < length lines)%nat) by (apply nth_error_Some; congruence).
    destruct (nth_error lines k) as [lk|] eqn:Hlk;
      [|apply nth_error_None in Hlk; lia].
    specialize (Hstop lk eq_refl).
    pose proof (nondecreasing_lines lines Hmono k i lk l Hki Hlk Hl). lia.
Qed.

Lemma post_event_is_the_time_window_witness :
  nondecreasing (start_times pause_track) = true /\
  parse_events_stats default_processor pause_track
    = Ok (events_with_stats default_processor pause_track) /\
  In (first_event default_processor pause_track)
     (events_with_stats default_processor pause_track) /\
  exists last_of_run k,
    nth_error pause_track
      (index_end (fst (first_event default_processor pause_track)))
      = Some last_of_run /\
    post_event (snd (first_event default_processor pause_track))
      = slice pause_track
          (S (index_end (fst (first_event default_processor pause_track)))) k /\
    forall i l, nth_error pause_track i = Some l ->
      (S (index_end (fst (first_event default_processor pause_track))) <= i)%nat ->
      ((i < k)%nat <->
       time (point_a l) < time (point_b last_of_run)
                          + timedelta_seconds (time_interval default_processor + 1)).
Proof.
  split; [reflexivity|]. split; [reflexivity|]. split; [left; reflexivity|].
  exact (post_event_is_the_time_window default_processor pause_track _
           (fst (first_event default_processor pause_track))
           (snd (first_event default_processor pause_track))
           eq_refl eq_refl (or_introl eq_refl)).
Defined.

(** X8. On a track whose start times never decrease, [pre_event] holds
    exactly the segments that start no earlier than the window before
    the start of the run and no later than the start of the run; the
    segments of an earlier event are taken like any other. *)
Theorem pre_event_is_the_time_window (self : InterruptionProcessor)
    (lines : list TrackSegment) (res : list (EventStats * ExerciseEvent))
    (stats : EventStats) (ev : ExerciseEvent) :
  nondecreasing (start_times lines) = true ->
  parse_events_stats self lines = Ok res ->
  In (stats, ev) res ->
  exists first_of_run j k,
    nth_error lines (index_start stats) = Some first_of_run /\
    pre_event ev = slice lines j k /\
    forall i l, nth_error lines i = Some l ->
      ((j <= i < k)%nat <->
       time (point_a first_of_run) - timedelta_seconds (time_interval self)
         <= time (point_a l) /\
       time (point_a l) <= time (point_a first_of_run)).
Proof.
  intros Hmono Hres Hin.
  apply parse_events_stats_ok in Hres. rewrite Forall_forall in Hres.
  destruct (Hres _ Hin) as (Hspec & _). cbn [fst snd] in Hspec.
  destruct (es_mid_start _ _ _ _ Hspec) as (ls & Hls & Hstart).
  destruct (es_pre _ _ _ _ Hspec)
    as (j & k & Hjk & Hpre & Hskip & (lj & Hlj & Hjstop) & Hall & Hstop).
  pose proof (es_pre_start _ _ _ _ Hspec) as Hps. rewrite Hstart in Hps.
  exists ls, j, k. split; [exact Hls|]. split; [exact Hpre|].
  intros i l Hl. rewrite <- Hps, <- Hstart. split.
  - intros Hi. split.
    + pose proof (nondecreasing_lines lines Hmono j i lj l (proj1 Hi) Hlj Hl). lia.
    + rewrite Hpre in Hall.
      apply (slice_Forall_nth _ lines j k i l Hall Hi Hl).
  - intros (Hlo & Hhi).
    assert (Hilen : (i < length lines)%nat) by (apply nth_error_Some; congruence).
    split.
    + destruct (Nat.le_gt_cases j i) as [Hji|Hij]; [exact Hji|].
      specialize (Hskip i l Hij Hl). lia.
    + destruct (Nat.lt_ge_cases i k) as [Hik|Hki]; [exact Hik|]. exfalso.
      destruct (nth_error lines k) as [lk|] eqn:Hlk;
        [|apply nth_error_None in Hlk; lia].
      specialize (Hstop lk eq_refl).
      pose proof (nondecreasing_lines lines Hmono k i lk l Hki Hlk Hl). lia.
Qed.

Lemma pre_event_is_the_time_window_witness :
  nondecreasing (start_times pause_track) = true /\
  parse_events_stats default_processor pause_track
    = Ok (events_with_stats default_processor pause_track) /\
  In (first_event default_processor pause_track)
     (events_with_stats default_processor pause_track) /\
  exists first_of_run j k,
    nth_error pause_track
      (index_start (fst (first_event default_processor pause_track)))
      = Some first_of_run /\
    pre_event (snd (first_event default_processor pause_track))
      = slice pause_track j k /\
    forall i l, nth_error pause_track i = Some l ->
      ((j <= i < k)%nat <->
       time (point_a first_of_run)
         - timedelta_seconds (time_interval default_processor)
         <= time (point_a l) /\
       time (point_a l) <= time (point_a first_of_run)).
Proof.
  split; [reflexivity|]. split; [reflexivity|]. split; [left; reflexivity|].
  exact (pre_event_is_the_time_window default_processor pause_track _
           (fst (first_event default_processor pause_track))
           (snd (first_event default_processor pause_track))
           eq_refl eq_refl (or_introl eq_refl)).
Defined.

(** ** The builder: chaining, optional data, short arrays *)

(** X9. Consecutive built segments are chained: [point_b] of a segment
    is [point_a] of the next one, with all its attributes. *)
Theorem built_segments_are_chained
    (segment_speed : TrackPoint -> TrackPoint -> option Z -> Z)
    (tcx_data : TrackData) (lines : list TrackSegment) (i : nat)
    (a b : TrackSegment) :
  length (timestamps tcx_data) = length (positions tcx_data) ->
  data_to_lines segment_speed tcx_data = Ok lines ->
  nth_error lines i = Some a ->
  nth_error lines (S i) = Some b ->
  point_b a = point_a b.
Proof.
  intros Hts Hrun Ha Hb.
  destruct (data_to_lines_spec segment_speed tcx_data Hts)
    as (lines' & Hrun' & _ & Hbuilt).
  assert (lines' = lines) by congruence. subst lines'.
  destruct (Hbuilt i a Ha) as (_ & -> & _).
  destruct (Hbuilt (S i) b Hb) as (-> & _). reflexivity.
Qed.

Lemma built_segments_are_chained_witness :
  length (timestamps three_samples) = length (positions three_samples) /\
  exists a b,
    data_to_lines (constant_speed 7) three_samples = Ok [a; b] /\
    point_b a = point_a b.
Proof.
  split; [reflexivity|].
  eexists. eexists. split; [reflexivity|].
  exact (built_segments_are_chained (constant_speed 7) three_samples _ 0%nat _ _
           eq_refl eq_refl eq_refl eq_refl).
Defined.

(** X10. Elevation and heart rate are present on both endpoints of every
    built segment exactly when their array is as long as [positions],
    and then hold the samples of that array; when [speeds] is not as
    long as [positions], the same holds of [distance] and [distances]. *)
Theorem optional_fields_follow_array_length
    (segment_speed : TrackPoint -> TrackPoint -> option Z -> Z)
    (tcx_data : TrackData) (lines : list TrackSegment) (i : nat)
    (seg : TrackSegment) :
  length (timestamps tcx_data) = length (positions tcx_data) ->
  data_to_lines segment_speed tcx_data = Ok lines ->
  nth_error lines i = Some seg ->
  (elevation (point_a seg) = parallel_item tcx_data (altitudes tcx_data) i /\
   elevation (point_b seg) = parallel_item tcx_data (altitudes tcx_data) (S i)) /\
  (heartrate (point_a seg) = parallel_item tcx_data (heartrates tcx_data) i /\
   heartrate (point_b seg) = parallel_item tcx_data (heartrates tcx_data) (S i)) /\
  (length (speeds tcx_data) <> length (positions tcx_data) ->
   distance (point_a seg) = parallel_item tcx_data (distances tcx_data) i /\
   distance (point_b seg) = parallel_item tcx_data (distances tcx_data) (S i)).
Proof.
  intros Hts Hrun Hseg.
  destruct (data_to_lines_spec segment_speed tcx_data Hts)
    as (lines' & Hrun' & Hlen & Hbuilt).
  assert (lines' = lines) by congruence. subst lines'.
  destruct (Hbuilt i seg Hseg) as (-> & -> & _ & _).
  destruct (sample_point_optional tcx_data i) as (-> & -> & Hda).
  destruct (sample_point_optional tcx_data (S i)) as (-> & -> & Hdb).
  repeat split. 
  - rewrite Hda. unfold parallel_item at 1.
    destruct (Nat.eqb_spec (length (speeds tcx_data)) (length (positions tcx_data)));
      [contradiction | reflexivity].
  - rewrite Hdb. unfold parallel_item at 1.
    destruct (Nat.eqb_spec (length (speeds tcx_data)) (length (positions tcx_data)));
      [contradiction | reflexivity].
Qed.

Lemma optional_fields_follow_array_length_witness :
  length (timestamps partial_data) = length (positions partial_data) /\
  exists a b,
    data_to_lines (constant_speed 7) partial_data = Ok [a; b] /\
    elevation (point_a b) = Some 301 /\ elevation (point_b b) = Some 302 /\
    heartrate (point_a b) = None /\ heartrate (point_b b) = None.
Proof.
  split; [reflexivity|].
  eexists. eexists. split; [reflexivity|].
  pose proof (optional_fields_follow_array_length (constant_speed 7) partial_data
                _ 1%nat _ eq_refl eq_refl eq_refl) as ((Ha & Hb) & (Hc & Hd) & _).
  repeat split; assumption.
Defined.

Lemma for_range_raise {St : Type} (body : St -> nat -> outcome St) (s : St)
    (n : nat) (e : exn) :
  for_range n body s = Raise e ->
  forall k, for_range (n + k) body s = Raise e.
Proof.
  intros H. induction k as [|k IH].
  - rewrite Nat.add_0_r. exact H.
  - rewrite Nat.add_succ_r, for_range_S, IH. reflexivity.
Qed.

Lemma data_to_lines_body_returns
    (segment_speed : TrackPoint -> TrackPoint -> option Z -> Z)
    (tcx_data : TrackData) (lines : list TrackSegment) (i : nat) :
  (S i < length (positions tcx_data))%nat ->
  (S i < length (timestamps tcx_data))%nat ->
  length lines = i ->
  exists seg,
    data_to_lines_body segment_speed tcx_data lines (S i) = Ok (lines ++ [seg]).
Proof.
  intros Hi Hti Hlen. unfold data_to_lines_body.
  cbn [Nat.eqb negb]. replace (S i - 1)%nat with i by lia.
  rewrite (item_nth (positions tcx_data) i (0, 0)) by lia.
  rewrite (item_nth (timestamps tcx_data) i 0) by lia.
  rewrite (item_nth (positions tcx_data) (S i) (0, 0)) by lia.
  rewrite (item_nth (timestamps tcx_data) (S i) 0) by lia.
  cbn [bind].
  repeat (rewrite copy_if_parallel_spec by lia; cbn [bind fst snd]).
  destruct i as [|i'].
  - cbn [Nat.ltb Nat.leb bind]. eexists. reflexivity.
  - replace (1 <? S (S i'))%nat with true by reflexivity.
    destruct (exists_last (l := lines)) as (front & lst & ->).
    { intros ->. discriminate. }
    rewrite item_last_snoc. cbn [bind]. eexists. reflexivity.
Qed.

Lemma data_to_lines_prefix
    (segment_speed : TrackPoint -> TrackPoint -> option Z -> Z)
    (tcx_data : TrackData) :
  forall n, (n <= length (positions tcx_data))%nat ->
    (n <= length (timestamps tcx_data) \/ n <= 1)%nat ->
    exists lines,
      for_range n (data_to_lines_body segment_speed tcx_data) [] = Ok lines /\
      length lines = (n - 1)%nat.
Proof.
  induction n as [|n IH]; intros Hn Ht.
  - exists []. split; reflexivity.
  - destruct IH as (lines & Hrun & Hlen); [lia | lia |].
    rewrite for_range_S, Hrun. cbn [bind].
    destruct n as [|n].
    + exists lines. split; [reflexivity | lia].
    + destruct (data_to_lines_body_returns segment_speed tcx_data lines n)
        as (seg & Hbody); [lia | lia | lia |].
      exists (lines ++ [seg]). split; [exact Hbody|].
      rewrite length_app. cbn [length]. lia.
Qed.

(** X11. When [timestamps] is shorter than [positions] and there are at
    least two positions, [__data_to_lines] raises [IndexError]: only the
    optional arrays are compared with the length of [positions]. *)
Theorem short_timestamps_raise_index_error
    (segment_speed : TrackPoint -> TrackPoint -> option Z -> Z)
    (tcx_data : TrackData) :
  (length (timestamps tcx_data) < length (positions tcx_data))%nat ->
  (2 <= length (positions tcx_data))%nat ->
  data_to_lines segment_speed tcx_data = Raise IndexError.
Proof.
  intros Hshort Htwo. unfold data_to_lines.
  set (t := length (timestamps tcx_data)) in *.
  set (i0 := Nat.max t 1).
  assert (Hi0 : (i0 < length (positions tcx_data))%nat) by (unfold i0; lia).
  replace (length (positions tcx_data))
    with (S i0 + (length (positions tcx_data) - S i0))%nat by lia.
  apply for_range_raise. rewrite for_range_S.
  destruct (data_to_lines_prefix segment_speed tcx_data i0) as (lines & -> & Hlen);
    [lia | unfold i0, t; lia |].
  cbn [bind]. unfold data_to_lines_body.
  replace (i0 =? 0)%nat with false by (symmetry; apply Nat.eqb_neq; unfold i0; lia).
  cbn [negb].
  rewrite (item_nth (positions tcx_data) (i0 - 1) (0, 0)) by lia. cbn [bind].
  unfold item at 1.
  destruct (nth_error (timestamps tcx_data) (i0 - 1)) as [ta|] eqn:Hta;
    [|reflexivity].
  cbn [bind].
  rewrite (item_nth (positions tcx_data) i0 (0, 0)) by lia. cbn [bind].
  unfold item at 1.
  assert (Hnone : nth_error (timestamps tcx_data) i0 = None)
    by (apply nth_error_None; unfold i0, t; lia).
  rewrite Hnone. reflexivity.
Qed.

Lemma short_timestamps_raise_index_error_witness :
  (length (timestamps short_timestamps) < length (positions short_timestamps))%nat /\
  (2 <= length (positions short_timestamps))%nat /\
  data_to_lines (constant_speed 7) short_timestamps = Raise IndexError.
Proof.
  assert (H1 : (length (timestamps short_timestamps)
                < length (positions short_timestamps))%nat) by (cbn; lia).
  assert (H2 : (2 <= length (positions short_timestamps))%nat) by (cbn; lia).
  split; [exact H1|]. split; [exact H2|].
  exact (short_timestamps_raise_index_error (constant_speed 7) short_timestamps
           H1 H2).
Defined.

Lemma increasing_of_adjacent (ts : list Z) :
  (forall i a b, nth_error ts i = Some a -> nth_error ts (S i) = Some b -> a < b) ->
  increasing ts = true.
Proof.
  induction ts as [|t rest IH]; intros H; [reflexivity|].
  destruct rest as [|u rest']; [reflexivity|].
  cbn [increasing]. apply andb_true_iff. split.
  - apply Z.ltb_lt. apply (H 0%nat); reflexivity.
  - apply IH. intros i a b Ha Hb. apply (H (S i)); assumption.
Qed.

(** X12. From a track record whose timestamps strictly increase the
    builder makes segments whose start times strictly increase, each of
    them with [point_a.time] before [point_b.time]. *)
Theorem built_segments_keep_time_order
    (segment_speed : TrackPoint -> TrackPoint -> option Z -> Z)
    (tcx_data : TrackData) (lines : list TrackSegment) :
  length (timestamps tcx_data) = length (positions tcx_data) ->
  increasing (timestamps tcx_data) = true ->
  data_to_lines segment_speed tcx_data = Ok lines ->
  increasing (start_times lines) = true /\
  Forall (fun seg => time (point_a seg) < time (point_b seg)) lines.
Proof.
  intros Hts Hinc Hrun.
  destruct (data_to_lines_spec segment_speed tcx_data Hts)
    as (lines' & Hrun' & Hlen & Hbuilt).
  assert (lines' = lines) by congruence. subst lines'.
  assert (Hsorted : StronglySorted Z.lt (timestamps tcx_data)).
  { apply Sorted_StronglySorted; [intros x y z; apply Z.lt_trans|].
    apply increasing_Sorted. exact Hinc. }
  assert (Hstep : forall i, (S i < length (timestamps tcx_data))%nat ->
            nth i (timestamps tcx_data) 0 < nth (S i) (timestamps tcx_data) 0).
  { intros i Hi.
    apply (increasing_nth _ Hsorted i (S i)); [lia | |];
      apply nth_error_nth'; lia. }
  assert (Htimes : forall i seg, nth_error lines i = Some seg ->
            time (point_a seg) = nth i (timestamps tcx_data) 0 /\
            time (point_b seg) = nth (S i) (timestamps tcx_data) 0 /\
            (S i < length (timestamps tcx_data))%nat).
  { intros i seg Hseg. destruct (Hbuilt i seg Hseg) as (-> & -> & _).
    destruct (sample_point_position tcx_data i) as (_ & ->).
    destruct (sample_point_position tcx_data (S i)) as (_ & ->).
    assert (i < length lines)%nat by (apply nth_error_Some; congruence).
    repeat split. lia. }
  split.
  - apply increasing_of_adjacent. intros i a b Ha Hb.
    unfold start_times in Ha, Hb. rewrite nth_error_map in Ha, Hb.
    destruct (nth_error lines i) as [sa|] eqn:Hsa; [|discriminate].
    destruct (nth_error lines (S i)) as [sb|] eqn:Hsb; [|discriminate].
    cbn in Ha, Hb. injection Ha as <-. injection Hb as <-.
    destruct (Htimes i sa Hsa) as (-> & _ & Hi).
    destruct (Htimes (S i) sb Hsb) as (-> & _ & _).
    apply Hstep. exact Hi.
  - apply Forall_forall. intros seg Hin.
    apply In_nth_error in Hin. destruct Hin as (i & Hseg).
    destruct (Htimes i seg Hseg) as (-> & -> & Hi). apply Hstep. exact Hi.
Qed.

Lemma built_segments_keep_time_order_witness :
  length (timestamps three_samples) = length (positions three_samples) /\
  increasing (timestamps three_samples) = true /\
  exists lines,
    data_to_lines (constant_speed 7) three_samples = Ok lines /\
    increasing (start_times lines) = true /\
    Forall (fun seg => time (point_a seg) < time (point_b seg)) lines.
Proof.
  split; [reflexivity|]. split; [reflexivity|].
  eexists. split; [reflexivity|].
  exact (built_segments_keep_time_order (constant_speed 7) three_samples _
           eq_refl eq_refl eq_refl).
Defined.

(** ** The classifier and [events] *)

Lemma scan_pairs_no_nodes (segs : list TrackSegment) : scan_pairs segs [] = [].
Proof.
  induction segs as [|seg segs IH]; [reflexivity | exact IH].
Qed.

Lemma scan_state_same_but_detail (distance_meters : Z * Z -> Z * Z -> Z)
    (ev : ExerciseEvent) (done : list (TrackSegment * Node))
    (s : Z * ExerciseEvent) :
  scan_state distance_meters ev done s -> same_but_detail ev (snd s).
Proof.
  intros [(_ & -> & _) | (before & pr & after & _ & _ & _ & _ & _ & ->)];
    repeat split.
Qed.

Lemma classify_event_same_but_detail (Box : Type)
    (CoordinatesBox : ExerciseEvent -> Box)
    (identify_intersections : string -> ExerciseEvent -> Box -> outcome (list Node))
    (distance_meters : Z * Z -> Z * Z -> Z)
    (self : InterruptionProcessor) (ev : ExerciseEvent) (nodes : list Node) :
  identify_intersections (overpass_api_url self) ev (CoordinatesBox ev) = Ok nodes ->
  exists ev',
    classify_event Box CoordinatesBox identify_intersections distance_meters
      self ev = Ok ev' /\
    same_but_detail ev ev'.
Proof.
  intros Hnodes. eexists. split.
  - apply (classify_event_scan _ _ _ _ _ _ _ Hnodes).
  - eapply scan_state_same_but_detail. apply classify_scan_state.
Qed.

(** X13. Whenever the feature service answers, [classify_event] returns
    the event: as it was when no pair of a core segment and a node is
    less than 22 metres apart, and otherwise with the detail made of the
    node of the first pair, in the order segments-then-nodes, whose
    distance is the least. *)
Theorem classify_event_picks_first_closest (Box : Type)
    (CoordinatesBox : ExerciseEvent -> Box)
    (identify_intersections : string -> ExerciseEvent -> Box -> outcome (list Node))
    (distance_meters : Z * Z -> Z * Z -> Z)
    (self : InterruptionProcessor) (ev : ExerciseEvent) (nodes : list Node) :
  identify_intersections (overpass_api_url self) ev (CoordinatesBox ev) = Ok nodes ->
  exists ev',
    classify_event Box CoordinatesBox identify_intersections distance_meters
      self ev = Ok ev' /\
    ((Forall (fun q => 22 <= pair_distance distance_meters q)
        (scan_pairs (event ev) nodes) /\ ev' = ev) \/
     (exists before pr after,
        scan_pairs (event ev) nodes = before ++ pr :: after /\
        pair_distance distance_meters pr < 22 /\
        Forall (fun q => pair_distance distance_meters pr
                         < pair_distance distance_meters q) before /\
        Forall (fun q => pair_distance distance_meters pr
                         <= pair_distance distance_meters q) after /\
        ev' = set_event_detail ev (detail_of (snd pr)))).
Proof.
  intros Hnodes. eexists. split.
  - apply (classify_event_scan _ _ _ _ _ _ _ Hnodes).
  - destruct (classify_scan_state distance_meters ev (scan_pairs (event ev) nodes))
      as [(_ & Hev & Hfar) | (before & pr & after & Hd & _ & Hnear & Hb & Ha & Hev)].
    + left. split; assumption.
    + right. exists before, pr, after. repeat split; assumption.
Qed.

Lemma classify_event_picks_first_closest_witness :
  three_node_service (overpass_api_url default_processor) pause_at_crossing
    (no_box pause_at_crossing)
    = Ok [mkNode 46010000 14000000; crossing; mkNode 45999900 14000000] /\
  exists ev',
    classify_event unit no_box three_node_service grid_distance
      default_processor pause_at_crossing = Ok ev' /\
    event_detail ev' = Some (detail_of crossing).
Proof.
  split; [reflexivity|].
  destruct (classify_event_picks_first_closest unit no_box three_node_service
              grid_distance default_processor pause_at_crossing _ eq_refl)
    as (ev' & Hrun & _).
  exists ev'. split; [exact Hrun|].
  vm_compute in Hrun. injection Hrun as <-. reflexivity.
Defined.

(** X14. [classify_event] changes nothing but the detail: the three
    segment lists and the type of the returned event are those of the
    event it was given. *)
Theorem classify_event_keeps_segments_and_type (Box : Type)
    (CoordinatesBox : ExerciseEvent -> Box)
    (identify_intersections : string -> ExerciseEvent -> Box -> outcome (list Node))
    (distance_meters : Z * Z -> Z * Z -> Z)
    (self : InterruptionProcessor) (ev ev' : ExerciseEvent) :
  classify_event Box CoordinatesBox identify_intersections distance_meters
    self ev = Ok ev' ->
  pre_event ev' = pre_event ev /\ event ev' = event ev /\
  post_event ev' = post_event ev /\ event_type ev' = event_type ev.
Proof.
  intros Hrun.
  destruct (identify_intersections (overpass_api_url self) ev (CoordinatesBox ev))
    as [nodes|e|] eqn:Hnodes.
  - destruct (classify_event_same_but_detail Box CoordinatesBox
                identify_intersections distance_meters self ev nodes Hnodes)
      as (ev2 & Hrun2 & Hsame).
    assert (ev2 = ev') by congruence. subst ev2. exact Hsame.
  - unfold classify_event in Hrun. rewrite Hnodes in Hrun. discriminate.
  - unfold classify_event in Hrun. rewrite Hnodes in Hrun. discriminate.
Qed.

Lemma classify_event_keeps_segments_and_type_witness :
  exists ev',
    classify_event unit no_box one_crossing_service grid_distance
      default_processor pause_at_crossing = Ok ev' /\
    pre_event ev' = pre_event pause_at_crossing /\
    event ev' = event pause_at_crossing /\
    post_event ev' = post_event pause_at_crossing /\
    event_type ev' = event_type pause_at_crossing.
Proof.
  eexists. split; [reflexivity|].
  exact (classify_event_keeps_segments_and_type unit no_box one_crossing_service
           grid_distance default_processor pause_at_crossing _ eq_refl).
Defined.

(** X15. When the feature service answers with no node, or the event has
    no core segment, [classify_event] returns the event as it was. *)
Theorem classify_event_without_pairs (Box : Type)
    (CoordinatesBox : ExerciseEvent -> Box)
    (identify_intersections : string -> ExerciseEvent -> Box -> outcome (list Node))
    (distance_meters : Z * Z -> Z * Z -> Z)
    (self : InterruptionProcessor) (ev : ExerciseEvent) (nodes : list Node) :
  identify_intersections (overpass_api_url self) ev (CoordinatesBox ev) = Ok nodes ->
  nodes = [] \/ event ev = [] ->
  classify_event Box CoordinatesBox identify_intersections distance_meters
    self ev = Ok ev.
Proof.
  intros Hnodes Hempty.
  rewrite (classify_event_scan Box CoordinatesBox identify_intersections
             distance_meters self ev nodes Hnodes).
  assert (Hnil : scan_pairs (event ev) nodes = []).
  { destruct Hempty as [-> | ->]; [apply scan_pairs_no_nodes | reflexivity]. }
  rewrite Hnil. reflexivity.
Qed.

Lemma classify_event_without_pairs_witness :
  silent_service (overpass_api_url default_processor) pause_at_crossing
    (no_box pause_at_crossing) = Ok [] /\
  (@nil Node = [] \/ event pause_at_crossing = []) /\
  classify_event unit no_box silent_service grid_distance default_processor
    pause_at_crossing = Ok pause_at_crossing.
Proof.
  split; [reflexivity|]. split; [left; reflexivity|].
  exact (classify_event_without_pairs unit no_box silent_service grid_distance
           default_processor pause_at_crossing [] eq_refl (or_introl eq_refl)).
Defined.

Lemma classify_loop_answered (Box : Type)
    (CoordinatesBox : ExerciseEvent -> Box)
    (identify_intersections : string -> ExerciseEvent -> Box -> outcome (list Node))
    (distance_meters : Z * Z -> Z * Z -> Z)
    (self : InterruptionProcessor) (evs : list ExerciseEvent) :
  Forall (answered Box CoordinatesBox identify_intersections self) evs ->
  forall acc, exists evs',
    classify_loop Box CoordinatesBox identify_intersections distance_meters
      self evs (Ok acc) = Ok (acc ++ evs') /\
    Forall2 same_but_detail evs evs'.
Proof.
  induction 1 as [|ev evs (nodes & Hnodes) Hrest IH]; intros acc.
  - exists []. split; [cbn; rewrite app_nil_r; reflexivity | constructor].
  - destruct (classify_event_same_but_detail Box CoordinatesBox
                identify_intersections distance_meters self ev nodes Hnodes)
      as (ev' & Hrun & Hsame).
    unfold classify_loop in *. cbn [fold_left bind]. rewrite Hrun. cbn [bind].
    destruct (IH (acc ++ [ev'])) as (evs' & Hfold & Hall).
    exists (ev' :: evs'). split.
    + rewrite Hfold, <- app_assoc. reflexivity.
    + constructor; assumption.
Qed.

Lemma classify_loop_raised (Box : Type)
    (CoordinatesBox : ExerciseEvent -> Box)
    (identify_intersections : string -> ExerciseEvent -> Box -> outcome (list Node))
    (distance_meters : Z * Z -> Z * Z -> Z)
    (self : InterruptionProcessor) (evs : list ExerciseEvent) (e : exn) :
  classify_loop Box CoordinatesBox identify_intersections distance_meters
    self evs (Raise e) = Raise e.
Proof.
  induction evs as [|ev evs IH]; [reflexivity | exact IH].
Qed.

(** X16. When the feature service answers for every event that
    [parse_events] returns, [events] with [classify=True] returns as many
    events, in the same order, each with the segments and the type of the
    parsed event. *)
Theorem events_classified_keep_segments
    (segment_speed : TrackPoint -> TrackPoint -> option Z -> Z) (Box : Type)
    (CoordinatesBox : ExerciseEvent -> Box)
    (identify_intersections : string -> ExerciseEvent -> Box -> outcome (list Node))
    (distance_meters : Z * Z -> Z * Z -> Z)
    (self : InterruptionProcessor) (input : parse_input)
    (evs : list ExerciseEvent) :
  parse_events segment_speed self input = Ok evs ->
  Forall (answered Box CoordinatesBox identify_intersections self) evs ->
  exists evs',
    events segment_speed Box CoordinatesBox identify_intersections
      distance_meters self input true = Ok evs' /\
    Forall2 same_but_detail evs evs'.
Proof.
  intros Hparse Hall. unfold events. rewrite Hparse. cbn [bind].
  destruct (classify_loop_answered Box CoordinatesBox identify_intersections
              distance_meters self evs Hall []) as (evs' & Hfold & Hsame).
  exists evs'. split; [exact Hfold | exact Hsame].
Qed.

Lemma events_classified_keep_segments_witness :
  parse_events (constant_speed 0) default_processor (Segments stop_and_go_track)
    = Ok (map snd (events_with_stats default_processor stop_and_go_track)) /\
  Forall (answered unit no_box one_crossing_service default_processor)
    (map snd (events_with_stats default_processor stop_and_go_track)) /\
  exists evs',
    events (constant_speed 0) unit no_box one_crossing_service grid_distance
      default_processor (Segments stop_and_go_track) true = Ok evs' /\
    Forall2 same_but_detail
      (map snd (events_with_stats default_processor stop_and_go_track)) evs'.
Proof.
  assert (Hall : Forall (answered unit no_box one_crossing_service default_processor)
                   (map snd (events_with_stats default_processor stop_and_go_track))).
  { apply Forall_forall. intros ev _. exists [crossing]. reflexivity. }
  split; [reflexivity|]. split; [exact Hall|].
  exact (events_classified_keep_segments (constant_speed 0) unit no_box
           one_crossing_service grid_distance default_processor
           (Segments stop_and_go_track) _ eq_refl Hall).
Defined.

(** X17. [events] with [classify=True] raises the exception of the first
    event for which the feature service fails: the events classified
    before it are lost. *)
Theorem events_stop_at_first_failure
    (segment_speed : TrackPoint -> TrackPoint -> option Z -> Z) (Box : Type)
    (CoordinatesBox : ExerciseEvent -> Box)
    (identify_intersections : string -> ExerciseEvent -> Box -> outcome (list Node))
    (distance_meters : Z * Z -> Z * Z -> Z)
    (self : InterruptionProcessor) (input : parse_input)
    (good : list ExerciseEvent) (bad : ExerciseEvent)
    (rest : list ExerciseEvent) (e : exn) :
  parse_events segment_speed self input = Ok (good ++ bad :: rest) ->
  Forall (answered Box CoordinatesBox identify_intersections self) good ->
  identify_intersections (overpass_api_url self) bad (CoordinatesBox bad) = Raise e ->
  events segment_speed Box CoordinatesBox identify_intersections
    distance_meters self input true = Raise e.
Proof.
  intros Hparse Hgood Hbad. unfold events. rewrite Hparse. cbn [bind].
  change (classify_loop Box CoordinatesBox identify_intersections distance_meters
            self (good ++ bad :: rest) (Ok []) = Raise e).
  unfold classify_loop. rewrite fold_left_app.
  destruct (classify_loop_answered Box CoordinatesBox identify_intersections
              distance_meters self good Hgood []) as (good' & Hfold & _).
  unfold classify_loop in Hfold. rewrite Hfold.
  cbn [fold_left bind].
  rewrite (classify_event_raises Box CoordinatesBox identify_intersections
             distance_meters self bad e Hbad).
  cbn [bind].
  apply (classify_loop_raised Box CoordinatesBox identify_intersections
           distance_meters self rest e).
Qed.

Lemma events_stop_at_first_failure_witness :
  parse_events (constant_speed 0) default_processor (Segments three_stops_track)
    = Ok ([nth_event default_processor three_stops_track 0]
          ++ nth_event default_processor three_stops_track 1
          :: [nth_event default_processor three_stops_track 2]) /\
  Forall (answered unit no_box fails_on_pause_service default_processor)
    [nth_event default_processor three_stops_track 0] /\
  fails_on_pause_service (overpass_api_url default_processor)
    (nth_event default_processor three_stops_track 1)
    (no_box (nth_event default_processor three_stops_track 1))
    = Raise (ServiceError "timeout") /\
  events (constant_speed 0) unit no_box fails_on_pause_service grid_distance
    default_processor (Segments three_stops_track) true
    = Raise (ServiceError "timeout").
Proof.
  assert (Hgood : Forall (answered unit no_box fails_on_pause_service
                            default_processor)
                    [nth_event default_processor three_stops_track 0]).
  { constructor; [|constructor]. exists [crossing]. reflexivity. }
  split; [reflexivity|]. split; [exact Hgood|]. split; [reflexivity|].
  exact (events_stop_at_first_failure (constant_speed 0) unit no_box
           fails_on_pause_service grid_distance default_processor
           (Segments three_stops_track)
           [nth_event default_processor three_stops_track 0]
           (nth_event default_processor three_stops_track 1)
           [nth_event default_processor three_stops_track 2]
           (ServiceError "timeout") eq_refl Hgood eq_refl).
Defined.
